(** * Savings calculator (app.js): input sanitizer and projection engine

    The file embeds the [SavingsCalculator] class of [src/app.js]:
    - [sanitizeInput] on strings (executable);
    - [getInputValues], [calculate], [formatCurrency] and the progress-bar
      width of [displayResults] on JavaScript numbers;
    - the [keypress] filter, [validateInput] with the error display,
      [loadExample], [clearAll] and [setDefaultValues] on a record of the
      four inputs, with [parseFloat] on texts of code units below 256.
    Timers (the debounce, the animation delays) are left out: a function
    that acts after a delay is modelled by the state it leaves.

    JavaScript numbers are modelled twice.

    - [Binary64] embeds [calculate] on the numbers of the machine
      (IEEE 754 binary64, with [Math.pow] left to the platform): what is
      stated there holds of the program with its rounding and overflow.
    - [JS] models numbers as extended reals: a finite number is an exact
      real (binary64 rounding and overflow are not modelled), and the
      IEEE special values [Infinity], [-Infinity] and [NaN] are kept, so
      that division by zero, [isFinite], [isNaN] and the propagation of
      [NaN] through [Math.max] behave as in the language.  Zero is
      unsigned and stands for [+0]: every divisor of the program is
      built from non-negative inputs.  This model carries the statements
      that do not depend on rounding (the branches taken, the special
      values, the texts of the form), the worked examples, and the
      statements made of the formulas in exact real arithmetic. *)

From Stdlib Require Import Reals Lra Lia ZArith Bool List String Ascii.
From Stdlib Require Import DecimalString.
From Stdlib Require Import Floats.
Import ListNotations.

Set Warnings "-inexact-float".

(* ================================================================== *)
(** * JavaScript numbers *)

Module JS.

Local Open Scope R_scope.

Inductive number : Type :=
| Fin (x : R)
| PInf
| NInf
| NaN.

Definition Rltb (x y : R) : bool := if Rlt_dec x y then true else false.
Definition Rleb (x y : R) : bool := if Rle_dec x y then true else false.
Definition Reqb (x y : R) : bool := if Req_dec_T x y then true else false.

(** [a < b], [a <= b], [a > b]: every comparison with [NaN] is false. *)
Definition lt (a b : number) : bool :=
  match a, b with
  | NaN, _ | _, NaN => false
  | Fin x, Fin y => Rltb x y
  | NInf, NInf => false
  | NInf, _ => true
  | _, NInf => false
  | PInf, _ => false
  | Fin _, PInf => true
  end.

Definition le (a b : number) : bool :=
  match a, b with
  | NaN, _ | _, NaN => false
  | Fin x, Fin y => Rleb x y
  | NInf, _ => true
  | _, PInf => true
  | _, _ => false
  end.

Definition gt (a b : number) : bool := lt b a.

Definition neg (a : number) : number :=
  match a with
  | Fin x => Fin (- x)
  | PInf => NInf
  | NInf => PInf
  | NaN => NaN
  end.

Definition add (a b : number) : number :=
  match a, b with
  | NaN, _ | _, NaN => NaN
  | Fin x, Fin y => Fin (x + y)
  | PInf, NInf | NInf, PInf => NaN
  | PInf, _ | _, PInf => PInf
  | NInf, _ | _, NInf => NInf
  end.

Definition sub (a b : number) : number := add a (neg b).

(** The infinity with the sign of [x]; [NaN] when [x] is zero. *)
Definition inf_of_sign (x : R) : number :=
  if Rlt_dec 0 x then PInf else if Rlt_dec x 0 then NInf else NaN.

Definition mul (a b : number) : number :=
  match a, b with
  | NaN, _ | _, NaN => NaN
  | Fin x, Fin y => Fin (x * y)
  | PInf, Fin y | Fin y, PInf => inf_of_sign y
  | NInf, Fin y | Fin y, NInf => inf_of_sign (- y)
  | PInf, PInf | NInf, NInf => PInf
  | PInf, NInf | NInf, PInf => NInf
  end.

(** Division; a finite non-zero number over zero is an infinity and
    [0 / 0] is [NaN]. *)
Definition div (a b : number) : number :=
  match a, b with
  | NaN, _ | _, NaN => NaN
  | Fin x, Fin y => if Req_dec_T y 0 then inf_of_sign x else Fin (x / y)
  | Fin _, _ => Fin 0
  | PInf, Fin y => if Rlt_dec y 0 then NInf else PInf
  | NInf, Fin y => if Rlt_dec y 0 then PInf else NInf
  | _, _ => NaN
  end.

(** [Math.max] and [Math.min] of two arguments: [NaN] is contagious. *)
Definition max (a b : number) : number :=
  match a, b with
  | NaN, _ | _, NaN => NaN
  | _, _ => if lt a b then b else a
  end.

Definition min (a b : number) : number :=
  match a, b with
  | NaN, _ | _, NaN => NaN
  | _, _ => if lt b a then b else a
  end.

Definition isFinite (a : number) : bool :=
  match a with Fin _ => true | _ => false end.

Definition isNaN (a : number) : bool :=
  match a with NaN => true | _ => false end.

Definition is_integer (e : R) : bool := Reqb e (IZR (Zfloor e)).

Definition is_odd_integer (e : R) : bool :=
  is_integer e && Z.odd (Zfloor e).

(** [Math.pow] on finite arguments.  A positive base uses the real power
    [exp (e * ln b)]; a negative base is defined at integer exponents
    only. *)
Definition pow_fin (b e : R) : number :=
  if Req_dec_T e 0 then Fin 1
  else if Rlt_dec 0 b then Fin (Rpower b e)
  else if Req_dec_T b 0 then (if Rlt_dec 0 e then Fin 0 else PInf)
  else if is_integer e
       then Fin ((if Z.odd (Zfloor e) then -1 else 1) * Rpower (- b) e)
       else NaN.

(** [Math.pow] with an infinite exponent depends on [|b|] against 1. *)
Definition pow_inf (b : number) (up : bool) : number :=
  match b with
  | NaN => NaN
  | PInf | NInf => if up then PInf else Fin 0
  | Fin x =>
      if Rlt_dec 1 (Rabs x) then (if up then PInf else Fin 0)
      else if Rlt_dec (Rabs x) 1 then (if up then Fin 0 else PInf)
      else NaN
  end.

Definition pow (b e : number) : number :=
  match e with
  | NaN => NaN
  | PInf => pow_inf b true
  | NInf => pow_inf b false
  | Fin y =>
      match b with
      | Fin x => pow_fin x y
      | NaN => if Req_dec_T y 0 then Fin 1 else NaN
      | PInf =>
          if Req_dec_T y 0 then Fin 1
          else if Rlt_dec 0 y then PInf else Fin 0
      | NInf =>
          if Req_dec_T y 0 then Fin 1
          else if Rlt_dec 0 y
               then (if is_odd_integer y then NInf else PInf)
               else Fin 0
      end
  end.

Definition abs (a : number) : number :=
  match a with
  | Fin x => Fin (Rabs x)
  | PInf | NInf => PInf
  | NaN => NaN
  end.

(** [Math.round]: nearest integer, ties towards [+Infinity]. *)
Definition round (a : number) : number :=
  match a with
  | Fin x => Fin (IZR (Zfloor (x + / 2)))
  | _ => a
  end.

(** Truthiness of a number: [0] and [NaN] are falsy. *)
Definition truthy (a : number) : bool :=
  match a with
  | Fin x => negb (Reqb x 0)
  | NaN => false
  | _ => true
  end.

(** [a || b] on numbers. *)
Definition or_else (a b : number) : number := if truthy a then a else b.

End JS.

Declare Scope js_scope.
Delimit Scope js_scope with js.
Bind Scope js_scope with JS.number.

Notation "a + b" := (JS.add a b) : js_scope.
Notation "a - b" := (JS.sub a b) : js_scope.
Notation "a * b" := (JS.mul a b) : js_scope.
Notation "a / b" := (JS.div a b) : js_scope.
Notation "a <? b" := (JS.lt a b) (at level 70) : js_scope.
Notation "a <=? b" := (JS.le a b) (at level 70) : js_scope.
Notation "a >? b" := (JS.gt a b) (at level 70) : js_scope.

Coercion JS.Fin : R >-> JS.number.

(* ================================================================== *)
(** * The input sanitizer *)

Module Sanitizer.

Local Open Scope string_scope.

(** The four form fields of [initializeElements]. *)
Inductive Field : Type :=
| goalAmountInput
| timeHorizonInput
| annualReturnInput
| currentSavingsInput.

Definition Field_eqb (f g : Field) : bool :=
  match f, g with
  | goalAmountInput, goalAmountInput
  | timeHorizonInput, timeHorizonInput
  | annualReturnInput, annualReturnInput
  | currentSavingsInput, currentSavingsInput => true
  | _, _ => false
  end.

(** The part of an input element that [sanitizeInput] reads and writes. *)
Record Input : Type := mkInput {
  field : Field;
  value : string;
  selectionStart : nat
}.

(** The character class [[0-9.]]. *)
Definition is_digit (c : ascii) : bool :=
  let n := nat_of_ascii c in (48 <=? n)%nat && (n <=? 57)%nat.

Definition is_dot (c : ascii) : bool := Ascii.eqb c ".".

Definition is_numeric (c : ascii) : bool := is_digit c || is_dot c.

(** [value.replace(/[^0-9.]/g, '')] *)
Fixpoint strip (s : string) : string :=
  match s with
  | EmptyString => EmptyString
  | String c s' => if is_numeric c then String c (strip s') else strip s'
  end.

(** [value.split('.')]: the pieces between the points, in order; the
    result is never empty. *)
Fixpoint split_dot (s : string) : list string :=
  match s with
  | EmptyString => [EmptyString]
  | String c s' =>
      if is_dot c then EmptyString :: split_dot s'
      else match split_dot s' with
           | p :: ps => String c p :: ps
           | [] => [String c EmptyString]
           end
  end.

(** [parts.join('')] *)
Definition join (parts : list string) : string := String.concat "" parts.

(** [parts[i]] read as a string operand (used at indices that exist). *)
Definition part (parts : list string) (i : nat) : string := nth i parts "".

(** The new text of the field. *)
Definition sanitized (f : Field) (originalValue : string) : string :=
  let value := strip originalValue in
  let parts := split_dot value in
  let value :=
    if (2 <? List.length parts)%nat
    then part parts 0 ++ "." ++ join (tl parts)
    else value in
  let value :=
    if Field_eqb f annualReturnInput && (List.length parts =? 2)%nat
    then part parts 0 ++ "." ++ substring 0 2 (part parts 1)
    else value in
  value.

(** [sanitizeInput(input)]: the element is written, and the cursor
    clamped to the new length, only when the text changed. *)
Definition sanitizeInput (input : Input) : Input :=
  let originalValue := value input in
  let value := sanitized (field input) originalValue in
  if String.eqb originalValue value then input
  else
    let cursorPosition := selectionStart input in
    let newPosition := Nat.min cursorPosition (String.length value) in
    mkInput (field input) value newPosition.

(** Digits after the first decimal point of a text. *)
Definition fraction_digits (s : string) : nat :=
  match split_dot s with
  | _ :: p :: _ => String.length p
  | _ => 0
  end.

Fixpoint count_dots (s : string) : nat :=
  match s with
  | EmptyString => 0
  | String c s' => (if is_dot c then 1 else 0) + count_dots s'
  end.

Fixpoint all_chars (p : ascii -> bool) (s : string) : bool :=
  match s with
  | EmptyString => true
  | String c s' => p c && all_chars p s'
  end.

(** ** The normal form the specification describes

    The specification's words, for comparison with [sanitized]: keep the
    digits and the points, keep only the first point, and for the rate
    field keep at most two digits after it. *)

Fixpoint remove_dots (s : string) : string :=
  match s with
  | EmptyString => EmptyString
  | String c s' =>
      if is_dot c then remove_dots s' else String c (remove_dots s')
  end.

Fixpoint keep_first_dot (s : string) : string :=
  match s with
  | EmptyString => EmptyString
  | String c s' =>
      if is_dot c then String c (remove_dots s')
      else String c (keep_first_dot s')
  end.

Fixpoint truncate_fraction (digits : nat) (s : string) : string :=
  match s with
  | EmptyString => EmptyString
  | String c s' =>
      if is_dot c then String c (substring 0 digits s')
      else String c (truncate_fraction digits s')
  end.

Definition spec_normalized (f : Field) (raw : string) : string :=
  let collapsed := keep_first_dot (strip raw) in
  if Field_eqb f annualReturnInput then truncate_fraction 2 collapsed
  else collapsed.

End Sanitizer.

(* ================================================================== *)
(** * The projection engine *)

Module Engine.

Import JS.
Local Open Scope js_scope.

(** The object returned by [getInputValues]. *)
Record Values : Type := mkValues {
  goalAmount : number;
  timeHorizon : number;
  annualReturn : number;
  currentSavings : number
}.

(** The object handed to [displayResults]. *)
Record Results : Type := mkResults {
  monthlyPayment : number;
  totalSaved : number;
  interestEarned : number;
  finalAmount : number;
  progressPercentage : number
}.

Definition zero : number := Fin 0%R.
Definition one : number := Fin 1%R.
Definition twelve : number := Fin 12%R.
Definition hundred : number := Fin 100%R.

(** [Math.max(0, parseFloat(text) || 0)], applied to the parsed number. *)
Definition nonNegative (parsed : number) : number :=
  max zero (or_else parsed zero).

(** The numbers of the form texts written by [setDefaultValues]. *)
Definition defaultValues : Values :=
  mkValues (Fin 50000%R) (Fin 5%R) (Fin 7%R) (Fin 0%R).

(** [getInputValues], from the four parsed field texts. *)
Definition getInputValues (goal time ret savings : number) : Values :=
  mkValues (nonNegative goal) (nonNegative time)
           (nonNegative ret) (nonNegative savings).

Section Calculation.

Variable v : Values.

Definition effectiveCurrentSavings : number :=
  min (currentSavings v) (goalAmount v).

Definition monthlyRate : number := annualReturn v / hundred / twelve.

Definition totalMonths : number := timeHorizon v * twelve.

(** [Math.pow(1 + monthlyRate, totalMonths)] *)
Definition growth : number := pow (one + monthlyRate) totalMonths.

Definition futureValueOfCurrentSavings : number :=
  if effectiveCurrentSavings >? zero then
    if annualReturn v >? zero then effectiveCurrentSavings * growth
    else effectiveCurrentSavings
  else zero.

Definition requiredFromPayments : number :=
  max zero (goalAmount v - futureValueOfCurrentSavings).

Definition futureValueFactor : number := (growth - one) / monthlyRate.

(** The payment as first assigned, before the validity check. *)
Definition computedPayment : number :=
  if requiredFromPayments >? zero then
    if (annualReturn v >? zero) && (monthlyRate >? zero)
    then requiredFromPayments / futureValueFactor
    else requiredFromPayments / totalMonths
  else zero.

(** "Ensure monthly payment is valid". *)
Definition ensureValid (payment : number) : number :=
  if negb (isFinite payment) || isNaN payment || (payment <? zero)
  then zero else payment.

Definition validPayment : number := ensureValid computedPayment.

Definition totalMonthlySavings : number := validPayment * totalMonths.

Definition totalPrincipal : number :=
  effectiveCurrentSavings + totalMonthlySavings.

Definition futureValueOfPayments : number :=
  if validPayment >? zero
  then validPayment * ((growth - one) / monthlyRate)
  else zero.

Definition totalFutureValue : number :=
  futureValueOfCurrentSavings + futureValueOfPayments.

Definition totalInterestEarned : number :=
  if annualReturn v >? zero then max zero (totalFutureValue - totalPrincipal)
  else zero.

(** The local [finalAmount] of [calculate]: the projected total. *)
Definition projectedTotal : number := totalPrincipal + totalInterestEarned.

(** The local [progressPercentage] of [calculate]. *)
Definition computedProgress : number :=
  if goalAmount v >? zero
  then min hundred ((projectedTotal / goalAmount v) * hundred)
  else zero.

(** [calculate], as the object it passes to [displayResults]. *)
Definition calculate : Results :=
  if (goalAmount v <=? zero) || (timeHorizon v <=? zero) then
    mkResults zero (currentSavings v) zero (goalAmount v) zero
  else
    mkResults validPayment totalPrincipal totalInterestEarned
              (goalAmount v) computedProgress.

End Calculation.

(** The progress-bar width of [displayResults], in percent:
    [results.totalSaved * 100 / results.finalAmount]. *)
Definition progressWidth (results : Results) : number :=
  totalSaved results * hundred / finalAmount results.

(** Decimal digits of a natural number with a comma before every group
    of three, as the [en-US] locale prints them. *)
Fixpoint group3 (reversed : list ascii) (k : nat) : list ascii :=
  match reversed with
  | [] => []
  | c :: rest =>
      if (k =? 3)%nat then ","%char :: c :: group3 rest 1
      else c :: group3 rest (S k)
  end.

Definition grouped (n : N) : string :=
  let digits := list_ascii_of_string (NilZero.string_of_uint (N.to_uint n)) in
  string_of_list_ascii (rev (group3 (rev digits) 0)).

(** [new Intl.NumberFormat('en-US', {style: 'currency', currency: 'USD',
    minimumFractionDigits: 0, maximumFractionDigits: 0}).format(x)] at a
    non-negative whole number [x] below [2^53], where every digit of
    the number is printed.  (From [2^53] on the platform prints the
    shortest digits that identify the binary64 number and fills up with
    zeros, which this function does not do.) *)
Definition formatUSD (x : Z) : string :=
  String "$"%char (grouped (Z.to_N x)).

(** [formatCurrency]; past the first test the amount is finite, so the
    rounded absolute value is a whole number and the last branch is
    never taken. *)
Definition formatCurrency (amount : number) : string :=
  if isNaN amount || negb (isFinite amount) then "$0"%string
  else match round (abs amount) with
       | Fin x => formatUSD (Zfloor x)
       | _ => "$0"%string
       end.

End Engine.

(* ================================================================== *)
(** * The projection formulas of the specification, over the reals *)

Module Formula.

Local Open Scope R_scope.

Section Formulas.

Variables goalAmount timeHorizonYears annualReturnPercent currentSavings : R.

Definition monthlyRate : R := annualReturnPercent / 100 / 12.

Definition totalMonths : R := timeHorizonYears * 12.

(** [(1 + monthlyRate)^totalMonths] *)
Definition growth : R := Rpower (1 + monthlyRate) totalMonths.

Definition effectiveCurrentSavings : R := Rmin currentSavings goalAmount.

Definition futureValueOfCurrentSavings : R :=
  if Rlt_dec 0 annualReturnPercent
  then effectiveCurrentSavings * growth
  else effectiveCurrentSavings.

Definition requiredFromPayments : R :=
  Rmax 0 (goalAmount - futureValueOfCurrentSavings).

Definition payment : R :=
  if Rlt_dec 0 annualReturnPercent
  then requiredFromPayments / ((growth - 1) / monthlyRate)
  else requiredFromPayments / totalMonths.

Definition totalPrincipal : R :=
  effectiveCurrentSavings + payment * totalMonths.

Definition interestEarned : R :=
  if Rlt_dec 0 annualReturnPercent
  then Rmax 0 (futureValueOfCurrentSavings
               + payment * ((growth - 1) / monthlyRate) - totalPrincipal)
  else 0.

Definition projectedTotal : R := totalPrincipal + interestEarned.

End Formulas.

End Formula.

(* ================================================================== *)
(** * The projection engine on binary64 numbers

    [calculate] once more, on the numbers of the machine: [float] is
    IEEE 754 binary64 with rounding to nearest, ties to even, so sums,
    products and quotients round, overflow to an infinity and underflow
    as they do in the program.  The language leaves the precision of
    [Math.pow] to the platform: it is a variable of the section, and
    what is proved holds for every function in its place. *)

Module Binary64.

Local Open Scope float_scope.

(** The object returned by [getInputValues]. *)
Record Values : Type := mkValues {
  goalAmount : float;
  timeHorizon : float;
  annualReturn : float;
  currentSavings : float
}.

(** The object handed to [displayResults]. *)
Record Results : Type := mkResults {
  monthlyPayment : float;
  totalSaved : float;
  interestEarned : float;
  finalAmount : float;
  progressPercentage : float
}.

Definition isNaN (x : float) : bool := is_nan x.

Definition isFinite (x : float) : bool := is_finite x.

(** [Math.max] and [Math.min] of two arguments: [NaN] is contagious and
    [+0] counts as larger than [-0]. *)
Definition max (a b : float) : float :=
  if is_nan a || is_nan b then nan
  else if a <? b then b
  else if b <? a then a
  else if is_zero a && get_sign a then b else a.

Definition min (a b : float) : float :=
  if is_nan a || is_nan b then nan
  else if b <? a then b
  else if a <? b then a
  else if is_zero a && negb (get_sign a) then b else a.

Section Calculation.

(** [Math.pow] *)
Variable pow : float -> float -> float.

Variable v : Values.

Definition effectiveCurrentSavings : float :=
  min (currentSavings v) (goalAmount v).

Definition monthlyRate : float := annualReturn v / 100 / 12.

Definition totalMonths : float := timeHorizon v * 12.

(** [Math.pow(1 + monthlyRate, totalMonths)] *)
Definition growth : float := pow (1 + monthlyRate) totalMonths.

Definition futureValueOfCurrentSavings : float :=
  if 0 <? effectiveCurrentSavings then
    if 0 <? annualReturn v then effectiveCurrentSavings * growth
    else effectiveCurrentSavings
  else 0.

Definition requiredFromPayments : float :=
  max 0 (goalAmount v - futureValueOfCurrentSavings).

Definition futureValueFactor : float := (growth - 1) / monthlyRate.

(** The payment as first assigned, before the validity check. *)
Definition computedPayment : float :=
  if 0 <? requiredFromPayments then
    if (0 <? annualReturn v) && (0 <? monthlyRate)
    then requiredFromPayments / futureValueFactor
    else requiredFromPayments / totalMonths
  else 0.

(** "Ensure monthly payment is valid". *)
Definition ensureValid (payment : float) : float :=
  if negb (isFinite payment) || isNaN payment || (payment <? 0)
  then 0 else payment.

Definition validPayment : float := ensureValid computedPayment.

Definition totalMonthlySavings : float := validPayment * totalMonths.

Definition totalPrincipal : float :=
  effectiveCurrentSavings + totalMonthlySavings.

Definition futureValueOfPayments : float :=
  if 0 <? validPayment
  then validPayment * ((growth - 1) / monthlyRate)
  else 0.

Definition totalFutureValue : float :=
  futureValueOfCurrentSavings + futureValueOfPayments.

Definition totalInterestEarned : float :=
  if 0 <? annualReturn v then max 0 (totalFutureValue - totalPrincipal)
  else 0.

(** The local [finalAmount] of [calculate]: the projected total. *)
Definition projectedTotal : float := totalPrincipal + totalInterestEarned.

(** The local [progressPercentage] of [calculate]. *)
Definition computedProgress : float :=
  if 0 <? goalAmount v
  then min 100 ((projectedTotal / goalAmount v) * 100)
  else 0.

(** [calculate], as the object it passes to [displayResults]. *)
Definition calculate : Results :=
  if (goalAmount v <=? 0) || (timeHorizon v <=? 0) then
    mkResults 0 (currentSavings v) 0 (goalAmount v) 0
  else
    mkResults validPayment totalPrincipal totalInterestEarned
              (goalAmount v) computedProgress.

End Calculation.

(** At a zero rate [calculate] never calls [Math.pow]
    ([Binary64Facts.zero_rate_pow_unused]); the instances at a zero rate
    are computed with this function in its place. *)
Definition unusedPow (base exponent : float) : float := nan.

(** A number, in its specification form, that is [NaN] or carries the
    sign [+]. *)
Definition plus_or_nan (f : spec_float) : bool :=
  match f with
  | S754_nan => true
  | S754_zero s | S754_infinity s | S754_finite s _ _ => negb s
  end.

End Binary64.

(* ================================================================== *)
(** * Predicates on texts *)

Module Texts.

Import Sanitizer.
Local Open Scope string_scope.

(** [a] is [b] with some characters left out, the others in order. *)
Inductive Subsequence : string -> string -> Prop :=
| sub_empty : Subsequence "" ""
| sub_keep (c : ascii) (a b : string) :
    Subsequence a b -> Subsequence (String c a) (String c b)
| sub_drop (c : ascii) (a b : string) :
    Subsequence a b -> Subsequence a (String c b).

(** A text of digits and at most one point. *)
Definition clean (s : string) : Prop :=
  all_chars is_numeric s = true /\ (count_dots s <= 1)%nat.

(** [s] with [inserted] in place of the selection [selected], between
    [before] and [after]. *)
Definition replaceSelection (before inserted after : string) : string :=
  before ++ inserted ++ after.

End Texts.

(* ================================================================== *)
(** * The keypress filter *)

Module Keyboard.

Import Sanitizer.
Local Open Scope string_scope.

(** The part of a keyboard event that the [keypress] listener reads. *)
Record KeyEvent : Type := mkKeyEvent {
  key : string;
  ctrlKey : bool;
  metaKey : bool
}.

Definition allowedKeys : list string :=
  ["0"; "1"; "2"; "3"; "4"; "5"; "6"; "7"; "8"; "9"; ".";
   "Backspace"; "Delete"; "Tab"; "Enter"].

(** [array.includes(key)] on strings. *)
Definition includes (keys : list string) (k : string) : bool :=
  existsb (String.eqb k) keys.

(** [value.includes('.')] *)
Fixpoint includes_dot (s : string) : bool :=
  match s with
  | EmptyString => false
  | String c s' => is_dot c || includes_dot s'
  end.

(** Whether the listener calls [e.preventDefault()], given the text of
    the target field. *)
Definition keypressPrevented (e : KeyEvent) (value : string) : bool :=
  (negb (includes allowedKeys (key e)) && negb (ctrlKey e)
   && negb (metaKey e))
  || (String.eqb (key e) "." && includes_dot value).

End Keyboard.

(* ================================================================== *)
(** * Reading a number from a text *)

Module Parse.

Import JS Sanitizer.
Local Open Scope string_scope.

(** The white space and line terminators that [parseFloat] skips, among
    the code units below 256: TAB, LF, VT, FF, CR, SP and NBSP. *)
Definition is_space (c : ascii) : bool :=
  let n := nat_of_ascii c in
  ((9 <=? n)%nat && (n <=? 13)%nat) || (n =? 32)%nat || (n =? 160)%nat.

Fixpoint trim_start (s : string) : string :=
  match s with
  | EmptyString => EmptyString
  | String c s' => if is_space c then trim_start s' else s
  end.

Definition digit_value (c : ascii) : Z := Z.of_nat (nat_of_ascii c) - 48.

(** The longest run of digits at the start of [s]: its value on top of
    [acc], its length on top of [n], and the rest of the text. *)
Fixpoint read_digits (acc : Z) (n : nat) (s : string) : Z * nat * string :=
  match s with
  | EmptyString => (acc, n, s)
  | String c s' =>
      if is_digit c then read_digits (10 * acc + digit_value c) (S n) s'
      else (acc, n, s)
  end.

(** The exponent part [e], [E] with an optional sign and at least one
    digit; 0 when the text does not start with a complete one. *)
Definition exponent (s : string) : Z :=
  match s with
  | EmptyString => 0
  | String c s' =>
      if Ascii.eqb c "e" || Ascii.eqb c "E" then
        match s' with
        | EmptyString => 0
        | String d s'' =>
            if Ascii.eqb d "+" then
              let '(v, n, _) := read_digits 0 0 s'' in
              if (n =? 0)%nat then 0 else v
            else if Ascii.eqb d "-" then
              let '(v, n, _) := read_digits 0 0 s'' in
              if (n =? 0)%nat then 0 else - v
            else
              let '(v, n, _) := read_digits 0 0 s' in
              if (n =? 0)%nat then 0 else v
        end
      else 0
  end%Z.

(** The value of the longest prefix that is an unsigned decimal literal:
    [Infinity], digits with an optional fraction, or a point followed by
    digits, each with an optional exponent; [NaN] without such a
    prefix.  A finite value is the exact real that the literal denotes:
    the rounding to the nearest binary64 number, with its overflow to
    [Infinity] and its underflow to 0, is not modelled, and what is
    proved of a reading (that it is [NaN] or not, that it is not
    negative) does not depend on it. *)
Definition unsigned (s : string) : number :=
  if prefix "Infinity" s then PInf
  else
    let '(int, n, rest) := read_digits 0 0 s in
    let whole :=
      if (n =? 0)%nat then NaN
      else Fin (IZR int * powerRZ 10 (exponent rest))%R in
    match rest with
    | EmptyString => whole
    | String c rest' =>
        if is_dot c then
          let '(frac, k, rest'') := read_digits 0 0 rest' in
          if (n =? 0)%nat && (k =? 0)%nat then NaN
          else Fin ((IZR int + IZR frac / 10 ^ k)
                    * powerRZ 10 (exponent rest''))%R
        else whole
    end.

(** [parseFloat(text)]: leading white space is skipped, then an optional
    sign and the longest unsigned literal are read. *)
Definition parseFloat (s : string) : number :=
  match trim_start s with
  | EmptyString => NaN
  | String c t' =>
      if Ascii.eqb c "+" then unsigned t'
      else if Ascii.eqb c "-" then neg (unsigned t')
      else unsigned (String c t')
  end.

End Parse.

(* ================================================================== *)
(** * The form: validation, error display, presets and reset *)

Module Form.

Import JS Sanitizer Engine.
Local Open Scope string_scope.

(** The text of an error message.  The two bound messages are template
    literals over a number, kept as the number. *)
Inductive Message : Type :=
| Literal (text : string)
| AtLeast (min : number)      (* `Value must be at least ${min}` *)
| NoMoreThan (max : number).  (* `Value must be no more than ${max}` *)

(** The [.error-message] element beside an input. *)
Record ErrorDiv : Type := mkErrorDiv {
  textContent : Message;
  show : bool
}.

(** An input element with what the validation reads and writes: its
    text, its [min] and [max] attributes, the [error] class and the
    message element of its parent, when there is one. *)
Record Control : Type := mkControl {
  field : Field;
  value : string;
  minAttribute : option string;
  maxAttribute : option string;
  error : bool;
  errorDiv : option ErrorDiv
}.

Definition setValue (c : Control) (text : string) : Control :=
  mkControl (field c) text (minAttribute c) (maxAttribute c)
            (error c) (errorDiv c).

Definition setError (c : Control) (flag : bool) : Control :=
  mkControl (field c) (value c) (minAttribute c) (maxAttribute c)
            flag (errorDiv c).

(** [showErrorMessage]: the message element is created when missing,
    given the text and shown. *)
Definition showErrorMessage (c : Control) (message : Message) : Control :=
  mkControl (field c) (value c) (minAttribute c) (maxAttribute c)
            (error c) (Some (mkErrorDiv message true)).

(** [hideErrorMessage]: an existing message element is hidden. *)
Definition hideErrorMessage (c : Control) : Control :=
  mkControl (field c) (value c) (minAttribute c) (maxAttribute c)
            (error c)
            (match errorDiv c with
             | Some d => Some (mkErrorDiv (textContent d) false)
             | None => None
             end).

(** The four inputs of the form. *)
Record Inputs : Type := mkInputs {
  goalAmount : Control;
  timeHorizon : Control;
  annualReturn : Control;
  currentSavings : Control
}.

(** [setDefaultValues] *)
Definition setDefaultValues (f : Inputs) : Inputs :=
  mkInputs (setValue (goalAmount f) "50000")
           (setValue (timeHorizon f) "5")
           (setValue (annualReturn f) "7")
           (setValue (currentSavings f) "0").

Definition clearErrorState (c : Control) : Control :=
  hideErrorMessage (setError c false).

(** [clearErrorStates] *)
Definition clearErrorStates (f : Inputs) : Inputs :=
  mkInputs (clearErrorState (goalAmount f))
           (clearErrorState (timeHorizon f))
           (clearErrorState (annualReturn f))
           (clearErrorState (currentSavings f)).

(** A value read from [button.dataset] and assigned to [input.value]:
    a missing attribute reads as [undefined]. *)
Definition datasetText (attribute : option string) : string :=
  match attribute with
  | Some text => text
  | None => "undefined"
  end.

(** The inputs as [loadExample] leaves them (the calculation it then
    triggers is [calculateInputs] below). *)
Definition loadExample (goal time returnRate : option string) (f : Inputs)
  : Inputs :=
  let f := clearErrorStates f in
  mkInputs (setValue (goalAmount f) (datasetText goal))
           (setValue (timeHorizon f) (datasetText time))
           (setValue (annualReturn f) (datasetText returnRate))
           (setValue (currentSavings f) "0").

(** The inputs as [clearAll] leaves them, once its timer has fired. *)
Definition clearAll (f : Inputs) : Inputs :=
  clearErrorStates (setDefaultValues f).

(** No [error] class and no visible message on a control. *)
Definition quiet (c : Control) : Prop :=
  error c = false /\
  forall d : ErrorDiv, errorDiv c = Some d -> show d = false.

Section Parsing.

(** The platform's [parseFloat]. *)
Variable parseFloat : string -> number.

(** [parseFloat(input.getAttribute(name))]: a missing attribute is
    [null], read as the text ["null"]. *)
Definition attributeNumber (attribute : option string) : number :=
  parseFloat (match attribute with Some text => text | None => "null" end).

Definition minimum (c : Control) : number :=
  or_else (attributeNumber (minAttribute c)) zero.

Definition maximum (c : Control) : number :=
  or_else (attributeNumber (maxAttribute c)) PInf.

(** [validateInput]: the control as it is left, and the returned flag. *)
Definition validateInput (c : Control) : Control * bool :=
  let parsed := parseFloat (value c) in
  let min := minimum c in
  let max := maximum c in
  if String.eqb (value c) "" then
    if Field_eqb (field c) currentSavingsInput then (setValue c "0", true)
    else
      (showErrorMessage (setError c true) (Literal "Please enter a value"),
       false)
  else if isNaN parsed then
    (showErrorMessage (setError c true)
       (Literal "Please enter a valid number"), false)
  else if (parsed <? min)%js then
    (showErrorMessage (setError c true) (AtLeast min), false)
  else if (parsed >? max)%js then
    (showErrorMessage (setError c true) (NoMoreThan max), false)
  else (hideErrorMessage (setError c false), true).

(** [getInputValues] on the texts of the inputs. *)
Definition readInputValues (f : Inputs) : Values :=
  getInputValues (parseFloat (value (goalAmount f)))
                 (parseFloat (value (timeHorizon f)))
                 (parseFloat (value (annualReturn f)))
                 (parseFloat (value (currentSavings f))).

(** What [calculate] hands to [displayResults] for the inputs. *)
Definition calculateInputs (f : Inputs) : Results :=
  calculate (readInputValues f).

End Parsing.

(** The four texts and the bar width that [displayResults] writes. *)
Record Display : Type := mkDisplay {
  monthlyPaymentText : string;
  totalSavedText : string;
  interestEarnedText : string;
  finalAmountText : string;
  progressFillWidth : number
}.

Definition displayResults (results : Results) : Display :=
  mkDisplay (formatCurrency (monthlyPayment results))
            (formatCurrency (totalSaved results))
            (formatCurrency (interestEarned results))
            (formatCurrency (finalAmount results))
            (progressWidth results).

End Form.

(* ================================================================== *)
(** * Facts about the number model *)

Module JSFacts.

Import JS.
Local Open Scope R_scope.

Lemma Rltb_true (x y : R) : x < y -> Rltb x y = true.
Proof. intros H; unfold Rltb; destruct (Rlt_dec x y); [reflexivity | lra]. Qed.

Lemma Rltb_false (x y : R) : y <= x -> Rltb x y = false.
Proof. intros H; unfold Rltb; destruct (Rlt_dec x y); [lra | reflexivity]. Qed.

Lemma Rleb_true (x y : R) : x <= y -> Rleb x y = true.
Proof. intros H; unfold Rleb; destruct (Rle_dec x y); [reflexivity | lra]. Qed.

Lemma Rleb_false (x y : R) : y < x -> Rleb x y = false.
Proof. intros H; unfold Rleb; destruct (Rle_dec x y); [lra | reflexivity]. Qed.

Lemma Rltb_iff (x y : R) : Rltb x y = true <-> x < y.
Proof.
  unfold Rltb; destruct (Rlt_dec x y); split; intros; try easy.
Qed.

Lemma Rleb_iff (x y : R) : Rleb x y = true <-> x <= y.
Proof.
  unfold Rleb; destruct (Rle_dec x y); split; intros; try easy.
Qed.

Lemma div_Fin (x y : R) : y <> 0 -> div (Fin x) (Fin y) = Fin (x / y).
Proof.
  intros H; simpl. destruct (Req_dec_T y 0); [contradiction | reflexivity].
Qed.

Lemma max_Fin (x y : R) : max (Fin x) (Fin y) = Fin (Rmax x y).
Proof.
  unfold max, lt, Rltb, Rmax.
  destruct (Rlt_dec x y), (Rle_dec x y); try reflexivity; try lra.
  f_equal; lra.
Qed.

Lemma min_Fin (x y : R) : min (Fin x) (Fin y) = Fin (Rmin x y).
Proof.
  unfold min, lt, Rltb, Rmin.
  destruct (Rlt_dec y x), (Rle_dec x y); try reflexivity; lra.
Qed.

Lemma pow_Fin (b e : R) : 0 < b -> pow (Fin b) (Fin e) = Fin (Rpower b e).
Proof.
  intros Hb; unfold pow, pow_fin.
  destruct (Req_dec_T e 0) as [->|He].
  - now rewrite Rpower_O.
  - destruct (Rlt_dec 0 b); [reflexivity | contradiction].
Qed.

(** Compound growth over a positive time at a positive rate exceeds 1. *)
Lemma Rpower_gt_1 (b e : R) : 1 < b -> 0 < e -> 1 < Rpower b e.
Proof.
  intros Hb He.
  rewrite <- (Rpower_O b) by lra.
  now apply Rpower_lt.
Qed.

Lemma Rpower_ge_1 (b e : R) : 1 <= b -> 0 <= e -> 1 <= Rpower b e.
Proof.
  intros [Hb | <-] He.
  - destruct He as [He | <-].
    + left; now apply Rpower_gt_1.
    + rewrite Rpower_O; lra.
  - unfold Rpower; rewrite ln_1, Rmult_0_r, exp_0; lra.
Qed.

(** [c - 1 <= c * ln c], from [1 + z <= exp z] at [z = - ln c]. *)
Lemma ln_lower_bound (c : R) : 0 < c -> c - 1 <= c * ln c.
Proof.
  intros Hc.
  pose proof (exp_ineq1_le (- ln c)) as H.
  rewrite exp_Ropp, exp_ln in H by exact Hc.
  apply (Rmult_le_compat_l c) in H; [| lra].
  rewrite Rinv_r in H by lra. lra.
Qed.

(** Bernoulli's inequality at a real exponent of at least one. *)
Lemma Rpower_Bernoulli (x n : R) :
  0 <= x -> 1 <= n -> 1 + n * x <= Rpower (1 + x) n.
Proof.
  intros Hx Hn.
  assert (0 < 1 + x) as Hc by lra.
  replace n with (1 + (n - 1)) at 2 by ring.
  rewrite Rpower_plus, Rpower_1 by exact Hc.
  unfold Rpower.
  pose proof (exp_ineq1_le ((n - 1) * ln (1 + x))) as He.
  pose proof (ln_lower_bound (1 + x) Hc) as Hl.
  assert (0 <= ln (1 + x)) as Hln.
  { destruct Hx as [Hx | <-].
    - left. rewrite <- ln_1. apply ln_increasing; lra.
    - rewrite Rplus_0_r, ln_1. lra. }
  apply Rle_trans with ((1 + x) * (1 + (n - 1) * ln (1 + x))).
  - nra.
  - apply Rmult_le_compat_l; lra.
Qed.

End JSFacts.

(* ================================================================== *)
(** * Facts about the sanitizer *)

Module SanitizerFacts.

Import Sanitizer.
Local Open Scope string_scope.

Lemma strip_numeric (s : string) : all_chars is_numeric (strip s) = true.
Proof.
  induction s as [| c s IH]; simpl; [reflexivity |].
  destruct (is_numeric c) eqn:Hc; simpl; [rewrite Hc |]; exact IH.
Qed.

(** Stripping changes nothing in a text that is already numeric. *)
Lemma strip_id (s : string) : all_chars is_numeric s = true -> strip s = s.
Proof.
  induction s as [| c s IH]; simpl; [reflexivity |].
  intros H. apply andb_true_iff in H as [Hc Hs]. rewrite Hc, IH; auto.
Qed.

Lemma count_dots_app (s1 s2 : string) :
  count_dots (s1 ++ s2) = (count_dots s1 + count_dots s2)%nat.
Proof. induction s1 as [| c s1 IH]; simpl; [reflexivity | rewrite IH; lia]. Qed.

Lemma all_chars_app (p : ascii -> bool) (s1 s2 : string) :
  all_chars p (s1 ++ s2) = all_chars p s1 && all_chars p s2.
Proof.
  induction s1 as [| c s1 IH]; simpl; [reflexivity |].
  now rewrite IH, andb_assoc.
Qed.

Lemma split_dot_length (s : string) :
  List.length (split_dot s) = S (count_dots s).
Proof.
  induction s as [| c s IH]; simpl; [reflexivity |].
  destruct (is_dot c); simpl; [now rewrite IH |].
  destruct (split_dot s); simpl in *; [discriminate | exact IH].
Qed.

(** No piece of a split contains a point, and the pieces keep the
    character class of the text. *)
Lemma split_dot_parts (p : ascii -> bool) (s : string) :
  all_chars p s = true ->
  Forall (fun part => count_dots part = 0%nat /\ all_chars p part = true)
         (split_dot s).
Proof.
  induction s as [| c s IH]; simpl; intros H.
  - constructor; [split; reflexivity | constructor].
  - apply andb_true_iff in H as [Hc Hs]. specialize (IH Hs).
    destruct (is_dot c) eqn:Hd.
    + constructor; [split; reflexivity | exact IH].
    + destruct (split_dot s) as [| q qs].
      * constructor; [| constructor]. simpl. rewrite Hd, Hc. split; reflexivity.
      * inversion IH as [| ? ? [Hq1 Hq2] Hqs]; subst.
        constructor; [| exact Hqs]. simpl. rewrite Hd, Hc, Hq1, Hq2.
        split; reflexivity.
Qed.

Lemma join_parts (p : ascii -> bool) (parts : list string) :
  Forall (fun part => count_dots part = 0%nat /\ all_chars p part = true)
         parts ->
  count_dots (join parts) = 0%nat /\ all_chars p (join parts) = true.
Proof.
  unfold join. induction 1 as [| q qs [Hq1 Hq2] Hqs [IH1 IH2]]; simpl.
  - split; reflexivity.
  - destruct qs as [| q' qs'].
    + split; assumption.
    + simpl in *. rewrite count_dots_app, all_chars_app, Hq1, Hq2.
      split; assumption.
Qed.

Lemma substring_parts (p : ascii -> bool) (n : nat) (s : string) :
  count_dots s = 0%nat /\ all_chars p s = true ->
  count_dots (substring 0 n s) = 0%nat /\
  all_chars p (substring 0 n s) = true /\
  (String.length (substring 0 n s) <= n)%nat.
Proof.
  revert s. induction n as [| n IH]; intros s [H1 H2].
  - destruct s; simpl; repeat split; lia.
  - destruct s as [| c s]; simpl in *; [repeat split; lia |].
    apply andb_true_iff in H2 as [Hc Hs].
    destruct (is_dot c); [discriminate |].
    destruct (IH s (conj H1 Hs)) as (I1 & I2 & I3).
    rewrite Hc, I1, I2. repeat split; lia.
Qed.

Lemma remove_dots_id (s : string) :
  count_dots s = 0%nat -> remove_dots s = s.
Proof.
  induction s as [| c s IH]; simpl; [reflexivity |].
  destruct (is_dot c); [discriminate |]. intros H. now rewrite IH.
Qed.

Lemma keep_first_dot_id (s : string) :
  (count_dots s <= 1)%nat -> keep_first_dot s = s.
Proof.
  induction s as [| c s IH]; simpl; [reflexivity |].
  destruct (is_dot c); intros H.
  - rewrite remove_dots_id by lia. reflexivity.
  - now rewrite IH.
Qed.

Lemma truncate_fraction_id (n : nat) (s : string) :
  count_dots s = 0%nat -> truncate_fraction n s = s.
Proof.
  induction s as [| c s IH]; simpl; [reflexivity |].
  destruct (is_dot c); [discriminate |]. intros H. now rewrite IH.
Qed.

Lemma split_dot_join (s : string) : join (split_dot s) = remove_dots s.
Proof.
  unfold join. induction s as [| c s IH]; simpl; [reflexivity |].
  destruct (is_dot c).
  - destruct (split_dot s) eqn:E; simpl in *; exact IH.
  - destruct (split_dot s) as [| q qs] eqn:E; simpl in *.
    + now rewrite <- IH.
    + destruct qs; simpl in *; now rewrite <- IH.
Qed.

Lemma split_dot_single (s b : string) : split_dot s = [b] -> s = b.
Proof.
  revert b. induction s as [| c s IH]; simpl; intros b H.
  - now injection H.
  - destruct (is_dot c).
    + pose proof (split_dot_length s) as L.
      inversion H as [[Hb Hs]]. rewrite Hs in L. discriminate.
    + pose proof (split_dot_length s) as L.
      destruct (split_dot s) as [| q qs]; [discriminate |].
      inversion H as [[Hb Hs]]. subst qs. now rewrite (IH q).
Qed.

(** With more than one piece, the first piece, a point and the other
    pieces joined are the text with only its first point kept. *)
Lemma split_dot_collapse (s : string) :
  (1 < List.length (split_dot s))%nat ->
  part (split_dot s) 0 ++ "." ++ join (tl (split_dot s)) = keep_first_dot s.
Proof.
  induction s as [| c s IH]; simpl; [lia |].
  destruct (is_dot c) eqn:Hd.
  - intros _. unfold part; simpl. rewrite split_dot_join.
    unfold is_dot in Hd. apply Ascii.eqb_eq in Hd. now subst c.
  - destruct (split_dot s) as [| q qs] eqn:E; simpl; [lia |].
    intros H. unfold part in *; simpl in *. now rewrite <- IH.
Qed.

Lemma split_dot_truncate (s a b : string) :
  split_dot s = [a; b] ->
  truncate_fraction 2 s = a ++ "." ++ substring 0 2 b.
Proof.
  revert a. induction s as [| c s IH]; simpl; intros a H; [discriminate |].
  destruct (is_dot c) eqn:Hd.
  - inversion H as [[Ha Hs]]. apply split_dot_single in Hs. subst b.
    unfold is_dot in Hd. apply Ascii.eqb_eq in Hd. now subst c.
  - destruct (split_dot s) as [| q qs] eqn:E; [discriminate |].
    inversion H as [[Ha Hs]]. subst qs. now rewrite (IH q).
Qed.

(** On the amount fields the code computes the specification's normal
    form. *)
Lemma sanitized_amount (f : Field) (raw : string) :
  f <> annualReturnInput -> sanitized f raw = spec_normalized f raw.
Proof.
  intros Hf. unfold sanitized, spec_normalized.
  assert (Field_eqb f annualReturnInput = false) as ->
    by (destruct f; try reflexivity; contradiction).
  cbn [andb].
  pose proof (split_dot_length (strip raw)) as L.
  destruct (2 <? List.length (split_dot (strip raw)))%nat eqn:E.
  - apply Nat.ltb_lt in E. apply split_dot_collapse. lia.
  - apply Nat.ltb_ge in E. symmetry. apply keep_first_dot_id. lia.
Qed.

(** On the rate field it does so when the stripped text has at most one
    point. *)
Lemma sanitized_rate (raw : string) :
  (count_dots (strip raw) <= 1)%nat ->
  sanitized annualReturnInput raw = spec_normalized annualReturnInput raw.
Proof.
  intros Hd. unfold sanitized, spec_normalized. cbn [Field_eqb andb].
  pose proof (split_dot_length (strip raw)) as L.
  rewrite keep_first_dot_id by exact Hd.
  destruct (split_dot (strip raw)) as [| p0 [| p1 [| p2 rest]]] eqn:E;
    simpl in L; try lia.
  - simpl. symmetry. apply truncate_fraction_id. lia.
  - simpl. symmetry. unfold part; simpl. now apply split_dot_truncate.
Qed.

(** Whatever the field, the new text holds digits and points only, with
    at most one point. *)
Lemma sanitized_numeric (f : Field) (raw : string) :
  all_chars is_numeric (sanitized f raw) = true /\
  (count_dots (sanitized f raw) <= 1)%nat.
Proof.
  unfold sanitized.
  pose proof (split_dot_length (strip raw)) as L.
  pose proof (split_dot_parts is_numeric (strip raw) (strip_numeric raw)) as P.
  pose proof (strip_numeric raw) as N.
  destruct (split_dot (strip raw)) as [| p0 [| p1 rest]] eqn:E;
    simpl in L; [discriminate | |].
  - rewrite andb_false_r. simpl. split; [exact N | lia].
  - inversion P as [| ? ? [D0 N0] P']; subst.
    inversion P' as [| ? ? [D1 N1] P'']; subst.
    destruct (join_parts is_numeric (p1 :: rest) P') as [DJ NJ].
    destruct (substring_parts is_numeric 2 p1 (conj D1 N1)) as (DS & NS & _).
    unfold part; cbn [nth tl].
    destruct (Field_eqb f annualReturnInput
              && (List.length (p0 :: p1 :: rest) =? 2)%nat).
    + rewrite !all_chars_app, !count_dots_app, N0, D0, NS, DS.
      split; [reflexivity | simpl; lia].
    + destruct (2 <? List.length (p0 :: p1 :: rest))%nat eqn:E2.
      * rewrite !all_chars_app, !count_dots_app, N0, D0, NJ, DJ.
        split; [reflexivity | simpl; lia].
      * apply Nat.ltb_ge in E2. simpl in E2. split; [exact N | lia].
Qed.

End SanitizerFacts.

(* ================================================================== *)
(** * The engine on finite, non-negative inputs *)

Module EngineFacts.

Import JS JSFacts Engine.
Local Open Scope R_scope.

Ltac unfold_consts := unfold zero, one, twelve, hundred in *.

(** One step of evaluation of the number operations, leaving the real
    expressions untouched. *)
Ltac js_eval :=
  cbn [JS.add JS.sub JS.neg JS.mul JS.div JS.lt JS.le JS.gt
       JS.isFinite JS.isNaN JS.abs JS.round JS.inf_of_sign
       goalAmount timeHorizon annualReturn currentSavings
       monthlyPayment totalSaved interestEarned finalAmount
       progressPercentage negb orb andb] in *.

(** Decide every real comparison in the goal, closing the impossible
    branches by linear arithmetic. *)
Ltac decide_R :=
  repeat (match goal with
  | |- context [Rlt_dec ?x ?y] => destruct (Rlt_dec x y); try lra
  | |- context [Rle_dec ?x ?y] => destruct (Rle_dec x y); try lra
  | |- context [Req_dec_T ?x ?y] => destruct (Req_dec_T x y); try lra
  end; js_eval).

(** Case analysis on every [Rmax] of the goal, innermost first. *)
Ltac case_Rmax :=
  repeat match goal with
  | |- context [Rmax ?x ?y] =>
      lazymatch x with
      | context [Rmax] => fail
      | _ =>
          lazymatch y with
          | context [Rmax] => fail
          | _ =>
              destruct (Rle_dec x y);
              [ rewrite (Rmax_right x y) by assumption
              | rewrite (Rmax_left x y) by lra ]
          end
      end
  end.

Section FiniteInputs.

Variables g t a s : R.
Hypothesis Hg : 0 < g.
Hypothesis Ht : 0 < t.
Hypothesis Ha : 0 <= a.
Hypothesis Hs : 0 <= s.

Local Abbreviation v := (mkValues (Fin g) (Fin t) (Fin a) (Fin s)).

Lemma monthlyRate_Fin : Engine.monthlyRate v = Fin (Formula.monthlyRate a).
Proof.
  unfold Engine.monthlyRate, Formula.monthlyRate; unfold_consts; js_eval.
  decide_R; reflexivity.
Qed.

Lemma totalMonths_Fin : Engine.totalMonths v = Fin (Formula.totalMonths t).
Proof. reflexivity. Qed.

Lemma effectiveCurrentSavings_Fin :
  Engine.effectiveCurrentSavings v = Fin (Formula.effectiveCurrentSavings g s).
Proof. unfold Engine.effectiveCurrentSavings; simpl. apply min_Fin. Qed.

Lemma monthlyRate_nonneg : 0 <= Formula.monthlyRate a.
Proof. unfold Formula.monthlyRate; lra. Qed.

Lemma monthlyRate_pos : 0 < a -> 0 < Formula.monthlyRate a.
Proof. unfold Formula.monthlyRate; lra. Qed.

Lemma totalMonths_pos : 0 < Formula.totalMonths t.
Proof. unfold Formula.totalMonths; lra. Qed.

Lemma growth_Fin : Engine.growth v = Fin (Formula.growth t a).
Proof.
  unfold Engine.growth. rewrite monthlyRate_Fin, totalMonths_Fin.
  unfold one; js_eval. apply pow_Fin.
  pose proof monthlyRate_nonneg; lra.
Qed.

Lemma growth_ge_1 : 1 <= Formula.growth t a.
Proof.
  apply Rpower_ge_1.
  - pose proof monthlyRate_nonneg; lra.
  - pose proof totalMonths_pos; lra.
Qed.

Lemma growth_gt_1 : 0 < a -> 1 < Formula.growth t a.
Proof.
  intros Hpos. apply Rpower_gt_1.
  - pose proof (monthlyRate_pos Hpos); lra.
  - apply totalMonths_pos.
Qed.

Lemma effective_bounds :
  0 <= Formula.effectiveCurrentSavings g s <= g.
Proof.
  unfold Formula.effectiveCurrentSavings, Rmin.
  destruct (Rle_dec s g); lra.
Qed.

Lemma futureValueOfCurrentSavings_Fin :
  Engine.futureValueOfCurrentSavings v
  = Fin (Formula.futureValueOfCurrentSavings g t a s).
Proof.
  unfold Engine.futureValueOfCurrentSavings,
    Formula.futureValueOfCurrentSavings.
  rewrite effectiveCurrentSavings_Fin, growth_Fin.
  pose proof effective_bounds as He.
  unfold_consts; js_eval; unfold Rltb.
  decide_R; try reflexivity; f_equal.
  - assert (Formula.effectiveCurrentSavings g s = 0) as -> by lra. ring.
  - lra.
Qed.

Lemma futureValue_bounds :
  Formula.effectiveCurrentSavings g s
  <= Formula.futureValueOfCurrentSavings g t a s.
Proof.
  unfold Formula.futureValueOfCurrentSavings.
  pose proof effective_bounds. pose proof growth_ge_1.
  destruct (Rlt_dec 0 a); [nra | lra].
Qed.

Lemma requiredFromPayments_Fin :
  Engine.requiredFromPayments v
  = Fin (Formula.requiredFromPayments g t a s).
Proof.
  unfold Engine.requiredFromPayments, Formula.requiredFromPayments.
  rewrite futureValueOfCurrentSavings_Fin. unfold_consts; js_eval.
  apply max_Fin.
Qed.

Lemma requiredFromPayments_nonneg :
  0 <= Formula.requiredFromPayments g t a s.
Proof. unfold Formula.requiredFromPayments. apply Rmax_l. Qed.

(** The annuity factor [((1+r)^n - 1) / r] is positive at a positive rate. *)
Lemma factor_pos :
  0 < a -> 0 < (Formula.growth t a - 1) / Formula.monthlyRate a.
Proof.
  intros Hpos. pose proof (growth_gt_1 Hpos). pose proof (monthlyRate_pos Hpos).
  apply Rdiv_lt_0_compat; lra.
Qed.

Lemma futureValueFactor_Fin :
  0 < a ->
  Engine.futureValueFactor v
  = Fin ((Formula.growth t a - 1) / Formula.monthlyRate a).
Proof.
  intros Hpos. unfold Engine.futureValueFactor.
  rewrite growth_Fin, monthlyRate_Fin. unfold_consts; js_eval.
  pose proof (monthlyRate_pos Hpos). decide_R. reflexivity.
Qed.

Lemma payment_nonneg : 0 <= Formula.payment g t a s.
Proof.
  unfold Formula.payment. pose proof requiredFromPayments_nonneg as Hr.
  destruct (Rlt_dec 0 a) as [Hpos | Hzero].
  - apply Rle_mult_inv_pos; [exact Hr | now apply factor_pos].
  - apply Rle_mult_inv_pos; [exact Hr | apply totalMonths_pos].
Qed.

Lemma computedPayment_Fin :
  Engine.computedPayment v = Fin (Formula.payment g t a s).
Proof.
  unfold Engine.computedPayment, Formula.payment.
  rewrite requiredFromPayments_Fin, totalMonths_Fin, monthlyRate_Fin.
  pose proof requiredFromPayments_nonneg as Hr.
  pose proof totalMonths_pos as Hn.
  destruct (Rlt_dec 0 a) as [Hpos | Hzero].
  - rewrite (futureValueFactor_Fin Hpos).
    pose proof (factor_pos Hpos) as HF. pose proof (monthlyRate_pos Hpos).
    unfold_consts; js_eval; unfold Rltb. decide_R; try reflexivity.
    f_equal.
    assert (Formula.requiredFromPayments g t a s = 0) as -> by lra.
    unfold Rdiv; ring.
  - unfold_consts; js_eval; unfold Rltb. decide_R; try reflexivity.
    f_equal.
    assert (Formula.requiredFromPayments g t a s = 0) as -> by lra.
    unfold Rdiv; ring.
Qed.

Lemma ensureValid_nonneg (p : R) : 0 <= p -> ensureValid (Fin p) = Fin p.
Proof.
  intros Hp. unfold ensureValid; unfold_consts; js_eval; unfold Rltb.
  decide_R. reflexivity.
Qed.

Lemma validPayment_Fin :
  Engine.validPayment v = Fin (Formula.payment g t a s).
Proof.
  unfold Engine.validPayment. rewrite computedPayment_Fin.
  apply ensureValid_nonneg, payment_nonneg.
Qed.

Lemma totalPrincipal_Fin :
  Engine.totalPrincipal v = Fin (Formula.totalPrincipal g t a s).
Proof.
  unfold Engine.totalPrincipal, Engine.totalMonthlySavings.
  rewrite validPayment_Fin, effectiveCurrentSavings_Fin, totalMonths_Fin.
  reflexivity.
Qed.

Lemma totalInterestEarned_Fin :
  Engine.totalInterestEarned v = Fin (Formula.interestEarned g t a s).
Proof.
  unfold Engine.totalInterestEarned, Formula.interestEarned,
    Engine.totalFutureValue, Engine.futureValueOfPayments.
  rewrite totalPrincipal_Fin, validPayment_Fin,
    futureValueOfCurrentSavings_Fin, growth_Fin, monthlyRate_Fin.
  pose proof payment_nonneg as Hp.
  destruct (Rlt_dec 0 a) as [Hpos | Hzero].
  - pose proof (monthlyRate_pos Hpos).
    unfold_consts; js_eval; unfold Rltb. decide_R.
    + rewrite max_Fin. reflexivity.
    + rewrite max_Fin. f_equal. f_equal.
      assert (Formula.payment g t a s = 0) as -> by lra. ring.
  - unfold_consts; js_eval; unfold Rltb. decide_R. reflexivity.
Qed.

Lemma projectedTotal_Fin :
  Engine.projectedTotal v = Fin (Formula.projectedTotal g t a s).
Proof.
  unfold Engine.projectedTotal.
  rewrite totalPrincipal_Fin, totalInterestEarned_Fin. reflexivity.
Qed.

(** The non-degenerate branch is the one taken. *)
Lemma calculate_Fin :
  calculate v
  = mkResults (Fin (Formula.payment g t a s))
              (Fin (Formula.totalPrincipal g t a s))
              (Fin (Formula.interestEarned g t a s))
              (Fin g)
              (Engine.computedProgress v).
Proof.
  unfold calculate.
  rewrite validPayment_Fin, totalPrincipal_Fin, totalInterestEarned_Fin.
  unfold_consts; js_eval; unfold Rleb. decide_R. reflexivity.
Qed.

(** The payments, compounded, deliver exactly what was required. *)
Lemma payment_factor :
  0 < a ->
  Formula.payment g t a s
  * ((Formula.growth t a - 1) / Formula.monthlyRate a)
  = Formula.requiredFromPayments g t a s.
Proof.
  intros Hpos. pose proof (growth_gt_1 Hpos). pose proof (monthlyRate_pos Hpos).
  unfold Formula.payment. destruct (Rlt_dec 0 a); [| lra].
  field. split; lra.
Qed.

Lemma zero_rate_principal :
  a = 0 -> Formula.totalPrincipal g t a s = g.
Proof.
  intros Hzero. pose proof effective_bounds as He.
  pose proof totalMonths_pos as Hn.
  unfold Formula.totalPrincipal, Formula.payment,
    Formula.requiredFromPayments, Formula.futureValueOfCurrentSavings.
  destruct (Rlt_dec 0 a); [lra |].
  rewrite Rmax_right by lra. field. lra.
Qed.

Lemma zero_rate_interest :
  a = 0 -> Formula.interestEarned g t a s = 0.
Proof.
  intros Hzero. unfold Formula.interestEarned.
  destruct (Rlt_dec 0 a); [lra | reflexivity].
Qed.

(** At a positive rate the projected total is the largest of the
    principal, the grown savings and the goal. *)
Lemma positive_rate_projectedTotal :
  0 < a ->
  Formula.projectedTotal g t a s
  = Rmax (Formula.totalPrincipal g t a s)
         (Rmax (Formula.futureValueOfCurrentSavings g t a s) g).
Proof.
  intros Hpos. unfold Formula.projectedTotal, Formula.interestEarned.
  destruct (Rlt_dec 0 a); [| lra].
  rewrite (payment_factor Hpos). unfold Formula.requiredFromPayments.
  case_Rmax; lra.
Qed.

Lemma projectedTotal_ge_goal : g <= Formula.projectedTotal g t a s.
Proof.
  destruct (Rlt_dec 0 a) as [Hpos | Hzero].
  - rewrite (positive_rate_projectedTotal Hpos).
    eapply Rle_trans; [| apply Rmax_r]. apply Rmax_r.
  - assert (a = 0) as Hz by lra.
    unfold Formula.projectedTotal.
    rewrite (zero_rate_principal Hz), (zero_rate_interest Hz). lra.
Qed.

Lemma computedProgress_Fin :
  Engine.computedProgress v = Fin 100.
Proof.
  unfold Engine.computedProgress. rewrite projectedTotal_Fin.
  pose proof projectedTotal_ge_goal as Hp.
  unfold_consts; js_eval; unfold Rltb. decide_R.
  rewrite min_Fin. f_equal. apply Rmin_left.
  apply Rmult_le_reg_r with (r := g); [exact Hg |].
  replace (Formula.projectedTotal g t a s / g * 100 * g)
    with (Formula.projectedTotal g t a s * 100) by (field; lra).
  lra.
Qed.

(** Over a horizon of at least one month the annuity factor is at least
    the number of months. *)
Lemma factor_ge_months :
  0 < a -> 1 <= Formula.totalMonths t ->
  Formula.totalMonths t
  <= (Formula.growth t a - 1) / Formula.monthlyRate a.
Proof.
  intros Hpos Hn. pose proof (monthlyRate_pos Hpos) as Hr.
  pose proof (Rpower_Bernoulli (Formula.monthlyRate a)
                (Formula.totalMonths t) (Rlt_le _ _ Hr) Hn) as HB.
  fold (Formula.growth t a) in HB.
  apply Rmult_le_reg_r with (r := Formula.monthlyRate a); [exact Hr |].
  replace ((Formula.growth t a - 1) / Formula.monthlyRate a
           * Formula.monthlyRate a)
    with (Formula.growth t a - 1) by (field; lra).
  lra.
Qed.

Lemma projectedTotal_eq_goal :
  0 < a ->
  Formula.futureValueOfCurrentSavings g t a s <= g ->
  1 <= Formula.totalMonths t ->
  Formula.projectedTotal g t a s = g.
Proof.
  intros Hpos Hfv Hn.
  rewrite (positive_rate_projectedTotal Hpos).
  rewrite (Rmax_right _ g) by exact Hfv.
  apply Rmax_right.
  pose proof (payment_factor Hpos) as HPF.
  pose proof (factor_ge_months Hpos Hn) as HF.
  pose proof payment_nonneg as HP. pose proof futureValue_bounds as He.
  unfold Formula.requiredFromPayments in HPF.
  rewrite Rmax_right in HPF by lra.
  unfold Formula.totalPrincipal.
  assert (Formula.payment g t a s * Formula.totalMonths t
          <= Formula.payment g t a s
             * ((Formula.growth t a - 1) / Formula.monthlyRate a)) as Hle
    by (apply Rmult_le_compat_l; assumption).
  lra.
Qed.

Lemma projectedTotal_gt_goal :
  g < Formula.futureValueOfCurrentSavings g t a s ->
  Formula.projectedTotal g t a s
  = Formula.futureValueOfCurrentSavings g t a s.
Proof.
  intros Hfv. pose proof effective_bounds as He.
  assert (0 < a) as Hpos.
  { destruct (Rlt_dec 0 a) as [H | H]; [exact H | exfalso].
    unfold Formula.futureValueOfCurrentSavings in Hfv.
    destruct (Rlt_dec 0 a); lra. }
  rewrite (positive_rate_projectedTotal Hpos).
  rewrite (Rmax_left _ g) by lra.
  apply Rmax_right.
  pose proof (payment_factor Hpos) as HPF.
  pose proof (factor_pos Hpos) as HF.
  unfold Formula.requiredFromPayments in HPF.
  rewrite Rmax_left in HPF by lra.
  assert (Formula.payment g t a s = 0) as HP0.
  { apply Rmult_integral in HPF. destruct HPF; lra. }
  unfold Formula.totalPrincipal. rewrite HP0. lra.
Qed.

End FiniteInputs.

(** ** Monotonicity of the formula in the current savings *)


(** ** The validity check and the input clamp, on every number *)

Lemma ensureValid_spec (p : number) :
  exists x : R,
    ensureValid p = Fin x /\ 0 <= x /\
    (negb (isFinite p) || isNaN p || lt p zero = true -> x = 0) /\
    (negb (isFinite p) || isNaN p || lt p zero = false -> p = Fin x).
Proof.
  unfold ensureValid.
  destruct p as [x | | |]; unfold_consts; js_eval.
  - unfold Rltb. destruct (Rlt_dec x 0).
    + exists 0. repeat split; try lra; intros; try reflexivity; discriminate.
    + exists x. repeat split; try lra; intros; try reflexivity; discriminate.
  - exists 0. repeat split; try lra; intros; try reflexivity; discriminate.
  - exists 0. repeat split; try lra; intros; try reflexivity; discriminate.
  - exists 0. repeat split; try lra; intros; try reflexivity; discriminate.
Qed.

Lemma nonNegative_spec (parsed : number) :
  nonNegative parsed = PInf
  \/ exists x : R, nonNegative parsed = Fin x /\ 0 <= x.
Proof.
  unfold nonNegative, or_else, truthy, Reqb.
  destruct parsed as [x | | |]; unfold_consts.
  - destruct (Req_dec_T x 0); cbn [negb]; rewrite max_Fin;
      right; eexists; (split; [reflexivity | apply Rmax_l]).
  - left. reflexivity.
  - right. exists 0. split; [| lra]. reflexivity.
  - right. exists 0. split; [| lra]. rewrite max_Fin. f_equal.
    apply Rmax_left; lra.
Qed.

(** ** The degenerate branch *)

Lemma calculate_degenerate (v : Values) :
  (goalAmount v <=? zero)%js = true \/ (timeHorizon v <=? zero)%js = true ->
  calculate v = mkResults zero (currentSavings v) zero (goalAmount v) zero.
Proof.
  intros H. unfold calculate.
  destruct H as [-> | ->]; [| rewrite orb_true_r]; reflexivity.
Qed.

Lemma finalAmount_calculate (v : Values) :
  finalAmount (calculate v) = goalAmount v.
Proof.
  unfold calculate.
  destruct ((goalAmount v <=? zero)%js || (timeHorizon v <=? zero)%js);
    reflexivity.
Qed.

End EngineFacts.

(* ================================================================== *)
(** * Facts about binary64 numbers and the engine on them *)

Module Binary64Facts.

Import Binary64.
Local Open Scope float_scope.

(** ** Comparisons, through their specification on [spec_float] *)

Lemma SFcompare_antisym (a b : spec_float) :
  SFcompare b a = option_map CompOpp (SFcompare a b).
Proof.
  destruct a as [sa | sa | | sa ma ea], b as [sb | sb | | sb mb eb];
    try destruct sa; try destruct sb; try reflexivity; cbn.
  - rewrite (Z.compare_antisym ea eb).
    destruct (ea ?= eb)%Z; cbn; try reflexivity.
    now rewrite (Pos.compare_cont_antisym ma mb Eq).
  - rewrite (Z.compare_antisym ea eb).
    destruct (ea ?= eb)%Z; cbn; try reflexivity.
    now rewrite (Pos.compare_cont_antisym ma mb Eq).
Qed.

Lemma leb_ltb_false (a b : float) : (a <=? b) = true -> (b <? a) = false.
Proof.
  rewrite leb_spec, ltb_spec. unfold SFleb, SFltb.
  rewrite (SFcompare_antisym (Prim2SF a) (Prim2SF b)).
  destruct (SFcompare (Prim2SF a) (Prim2SF b)) as [[ | | ] | ];
    cbn; congruence.
Qed.

Lemma is_nan_spec (x : float) :
  is_nan x = match Prim2SF x with S754_nan => true | _ => false end.
Proof.
  unfold is_nan. rewrite eqb_spec. unfold SFeqb.
  destruct (Prim2SF x) as [s | s | | s m e]; try destruct s;
    try reflexivity; cbn; rewrite Z.compare_refl, Pos.compare_cont_refl;
    reflexivity.
Qed.

Lemma is_nan_not_finite (x : float) : is_nan x = true -> isFinite x = false.
Proof. unfold isFinite, is_finite. intros ->. reflexivity. Qed.

Lemma isFinite_not_nan (x : float) : isFinite x = true -> is_nan x = false.
Proof.
  unfold isFinite, is_finite. destruct (is_nan x); [discriminate | reflexivity].
Qed.

(** A number above zero is not [NaN], carries the sign [+] and is not
    zero. *)
Lemma ltb_zero (x : float) :
  (0 <? x) = true ->
  plus_or_nan (Prim2SF x) = true /\ is_nan x = false /\
  is_zero x = false /\ (x <=? 0) = false /\ (x <? 0) = false.
Proof.
  rewrite is_nan_spec. unfold is_zero.
  rewrite eqb_spec, leb_spec, !ltb_spec.
  change (Prim2SF zero) with (S754_zero false).
  change (Prim2SF 0) with (S754_zero false).
  destruct (Prim2SF x) as [s | s | | s m e]; try destruct s; cbn;
    intros H; try discriminate H; repeat split.
Qed.

Lemma plus_or_nan_ltb (x : float) :
  plus_or_nan (Prim2SF x) = true -> (x <? 0) = false.
Proof.
  rewrite ltb_spec. change (Prim2SF 0) with (S754_zero false).
  destruct (Prim2SF x) as [s | s | | s m e]; try destruct s; cbn;
    intros H; try discriminate H; reflexivity.
Qed.

(** ** Signs of products and quotients *)

Lemma binary_round_aux_sign (m e : Z) (l : location) :
  plus_or_nan (binary_round_aux prec emax false m e l) = true.
Proof.
  unfold binary_round_aux.
  destruct (shr_fexp prec emax m e l) as [mrs e'].
  destruct (shr_fexp prec emax _ e' loc_Exact) as [mrs' e''].
  destruct (shr_m mrs'); [reflexivity | | reflexivity].
  destruct (e'' <=? emax - prec)%Z; reflexivity.
Qed.

Lemma mul_sign (x y : float) :
  plus_or_nan (Prim2SF x) = true -> plus_or_nan (Prim2SF y) = true ->
  plus_or_nan (Prim2SF (x * y)) = true.
Proof.
  rewrite mul_spec. unfold SF64mul, SFmul.
  destruct (Prim2SF x) as [sx | sx | | sx mx ex],
           (Prim2SF y) as [sy | sy | | sy my ey];
    try destruct sx; try destruct sy; cbn [plus_or_nan negb xorb];
    intros Hx Hy; try discriminate; try reflexivity.
  apply binary_round_aux_sign.
Qed.

Lemma div_sign (x y : float) :
  plus_or_nan (Prim2SF x) = true -> plus_or_nan (Prim2SF y) = true ->
  plus_or_nan (Prim2SF (x / y)) = true.
Proof.
  rewrite div_spec. unfold SF64div, SFdiv.
  destruct (Prim2SF x) as [sx | sx | | sx mx ex],
           (Prim2SF y) as [sy | sy | | sy my ey];
    try destruct sx; try destruct sy; cbn [plus_or_nan negb xorb];
    intros Hx Hy; try discriminate; try reflexivity.
  destruct (SFdiv_core_binary prec emax (Z.pos mx) ex (Z.pos my) ey)
    as [[mz ez] lz].
  apply binary_round_aux_sign.
Qed.

(** [+0] over a number that is [NaN] or carries the sign [+] is [+0] or
    [NaN]. *)
Lemma zero_div (y : float) :
  plus_or_nan (Prim2SF y) = true -> 0 / y = 0 \/ is_nan (0 / y) = true.
Proof.
  intros Hy. rewrite is_nan_spec.
  assert (Prim2SF (0 / y) = S754_zero false \/ Prim2SF (0 / y) = S754_nan)
    as [H | H].
  { rewrite div_spec. unfold SF64div, SFdiv.
    change (Prim2SF 0) with (S754_zero false).
    destruct (Prim2SF y) as [sy | sy | | sy my ey]; try destruct sy;
      try discriminate Hy; cbn; auto. }
  - left. apply Prim2SF_inj. rewrite H. reflexivity.
  - right. rewrite H. reflexivity.
Qed.

Lemma nan_div (y : float) : is_nan (nan / y) = true.
Proof.
  rewrite is_nan_spec, div_spec. unfold SF64div, SFdiv.
  change (Prim2SF nan) with S754_nan. reflexivity.
Qed.

(** ** [Math.max] and [Math.min] *)

(** [Math.max(0, x)] is [NaN], [+0], or [x] when [x] is above zero. *)
Lemma max_zero (x : float) :
  max 0 x = nan \/ max 0 x = 0 \/ (max 0 x = x /\ (0 <? x) = true).
Proof.
  unfold max. change (is_nan 0) with false.
  change (is_zero 0 && get_sign 0) with false. cbn [orb].
  destruct (is_nan x); [now left |].
  destruct (0 <? x) eqn:H; [right; right; split; reflexivity |].
  right; left. destruct (x <? 0); reflexivity.
Qed.


Lemma max_zero_plus (x : float) : plus_or_nan (Prim2SF (max 0 x)) = true.
Proof.
  destruct (max_zero x) as [-> | [-> | [-> H]]]; try reflexivity.
  apply ltb_zero, H.
Qed.

(** The lesser of savings within the goal and the goal is the savings. *)
Lemma min_within (s g : float) :
  (0 <? g) = true -> (s <=? g) = true -> s = 0 \/ (0 <? s) = true ->
  min s g = s.
Proof.
  intros Hg Hle [-> | Hs]; unfold min.
  - destruct (ltb_zero g Hg) as (_ & -> & _ & _ & ->).
    change (is_nan 0) with false. cbn [orb]. rewrite Hg. reflexivity.
  - destruct (ltb_zero s Hs) as (_ & -> & -> & _ & _).
    destruct (ltb_zero g Hg) as (_ & -> & _ & _ & _).
    cbn [orb andb]. rewrite (leb_ltb_false s g Hle).
    destruct (s <? g); reflexivity.
Qed.


(** ** The validity check *)

Lemma ensureValid_cases (p : float) :
  ensureValid p = if isFinite p && negb (p <? 0) then p else 0.
Proof.
  unfold ensureValid, isNaN.
  destruct (isFinite p) eqn:Hf; cbn [negb orb andb]; [| reflexivity].
  rewrite (isFinite_not_nan p Hf). cbn [orb].
  destruct (p <? 0); reflexivity.
Qed.


(** At a zero rate [Math.pow] is never called. *)
Lemma zero_rate_pow_unused (pow pow' : float -> float -> float) (v : Values) :
  (0 <? annualReturn v) = false -> calculate pow v = calculate pow' v.
Proof.
  intros Ha.
  unfold calculate, validPayment, computedPayment, requiredFromPayments,
    totalPrincipal, totalMonthlySavings, validPayment, computedPayment,
    requiredFromPayments, computedProgress, projectedTotal, totalPrincipal,
    totalInterestEarned, totalMonthlySavings, validPayment, computedPayment,
    requiredFromPayments, futureValueOfCurrentSavings.
  rewrite Ha. reflexivity.
Qed.

End Binary64Facts.

(* ================================================================== *)
(** * Properties of the engine on binary64 numbers *)

Section MachineProperties.

Import Binary64 Binary64Facts.
Local Open Scope float_scope.

(** C1, as stated, fails: the quotient is not always what is returned.
    With goal 1e10, horizon 1e-300 and no rate or savings, the amount
    required is the goal and [requiredFromPayments / totalMonths]
    overflows to [Infinity]; the validity check then returns 0. *)
Lemma payment_overflow_is_zeroed :
  let v := mkValues 1e10 1e-300 0 0 in
  (0 <? goalAmount v) = true /\ (0 <? timeHorizon v) = true /\
  requiredFromPayments unusedPow v / totalMonths v = infinity /\
  monthlyPayment (calculate unusedPow v) = 0 /\
  (monthlyPayment (calculate unusedPow v)
   =? requiredFromPayments unusedPow v / totalMonths v) = false.
Proof. vm_compute. repeat split. Qed.

(** The same happens at a positive rate.  With the rate 1e-20 the sum
    [1 + monthlyRate] rounds to 1, so on a platform whose [Math.pow]
    gives [1^12 = 1] the annuity factor is 0, the division gives
    [Infinity] and the payment is reset to 0. *)
Lemma tiny_rate_payment_is_zeroed (pow : float -> float -> float) :
  pow 1 12 = 1 ->
  computedPayment pow (mkValues 1000 1 1e-20 0) = infinity /\
  monthlyPayment (calculate pow (mkValues 1000 1 1e-20 0)) = 0.
Proof.
  intros Hpow.
  assert (computedPayment pow (mkValues 1000 1 1e-20 0) = infinity) as H.
  { unfold computedPayment, requiredFromPayments,
      futureValueOfCurrentSavings, futureValueFactor, growth.
    cbn. rewrite Hpow. reflexivity. }
  split; [exact H |].
  unfold calculate. cbn [goalAmount timeHorizon monthlyPayment].
  change ((1000 <=? 0) || (1 <=? 0)) with false. cbv iota.
  unfold validPayment. rewrite H. reflexivity.
Qed.

(** C1, amended.  With a positive goal and horizon the engine computes,
    in binary64 arithmetic and with the platform's [Math.pow]:
    [monthlyRate = annualReturnPercent / 100 / 12] and
    [totalMonths = timeHorizonYears * 12]; the capped savings
    [min(currentSavings, goalAmount)], grown by
    [(1 + monthlyRate)^totalMonths] when they and the rate are positive
    and unchanged at a zero rate;
    [requiredFromPayments = max(0, goalAmount - futureValueOfCurrentSavings)];
    and, when something is required, the payment
    [requiredFromPayments / (((1 + monthlyRate)^totalMonths - 1) / monthlyRate)]
    when the rate and the monthly rate are positive and
    [requiredFromPayments / totalMonths] otherwise.  It returns this
    payment when it is finite and not negative, and 0 when it is not. *)
Theorem required_monthly_payment
    (pow : float -> float -> float) (g t a s : float) :
  (0 <? g) = true -> (0 <? t) = true ->
  let v := mkValues g t a s in
  let r := a / 100 / 12 in
  let n := t * 12 in
  let capped := min s g in
  let grown :=
    if 0 <? capped
    then (if 0 <? a then capped * pow (1 + r) n else capped)
    else 0 in
  let required := max 0 (g - grown) in
  let payment :=
    if 0 <? required then
      if (0 <? a) && (0 <? r)
      then required / ((pow (1 + r) n - 1) / r)
      else required / n
    else 0 in
  monthlyRate v = r /\
  totalMonths v = n /\
  futureValueOfCurrentSavings pow v = grown /\
  requiredFromPayments pow v = required /\
  monthlyPayment (calculate pow v)
  = if isFinite payment && negb (payment <? 0) then payment else 0.
Proof.
  intros Hg Ht v r n capped grown required payment.
  repeat split.
  unfold calculate. cbn [goalAmount timeHorizon v].
  destruct (ltb_zero g Hg) as (_ & _ & _ & -> & _).
  destruct (ltb_zero t Ht) as (_ & _ & _ & -> & _).
  cbn [orb monthlyPayment]. unfold validPayment.
  rewrite ensureValid_cases. reflexivity.
Qed.

Lemma required_monthly_payment_witness :
  monthlyPayment (calculate unusedPow (mkValues 1200 1 0 0)) = 100.
Proof.
  exact (proj2 (proj2 (proj2 (proj2
    (required_monthly_payment unusedPow 1200 1 0 0 eq_refl eq_refl))))).
Defined.




(** C5, as stated, fails: at a zero rate the quotient can overflow.
    With goal 1e10, horizon 1e-300, rate 0 and savings 5e9 (within the
    goal), [max(0, goalAmount - currentSavings) / (timeHorizonYears * 12)]
    is [Infinity] and the payment returned is 0. *)
Lemma zero_rate_quotient_overflows :
  let v := mkValues 1e10 1e-300 0 5e9 in
  annualReturn v = 0 /\
  (0 <? goalAmount v) = true /\ (0 <? timeHorizon v) = true /\
  (currentSavings v <=? goalAmount v) = true /\
  max 0 (goalAmount v - currentSavings v) / (timeHorizon v * 12)
  = infinity /\
  monthlyPayment (calculate unusedPow v) = 0 /\
  (monthlyPayment (calculate unusedPow v)
   =? max 0 (goalAmount v - currentSavings v) / (timeHorizon v * 12))
  = false.
Proof. vm_compute. repeat split. Qed.

(** C5, amended.  At a zero rate, with a positive goal and horizon and
    savings that are 0 or positive and within the goal, no interest is
    earned and the payment is the binary64 quotient
    [max(0, goalAmount - currentSavings) / (timeHorizonYears * 12)]
    when that quotient is finite, and 0 when it is not; for goal 10000,
    horizon 2, rate 0 and savings 2000 the payment is [8000/24], the
    interest 0 and the principal 10000. *)
Theorem zero_rate_payment (pow : float -> float -> float) :
  (forall g t s : float,
     (0 <? g) = true -> (0 <? t) = true ->
     s = 0 \/ (0 <? s) = true -> (s <=? g) = true ->
     let results := calculate pow (mkValues g t 0 s) in
     let quotient := max 0 (g - s) / (t * 12) in
     interestEarned results = 0 /\
     monthlyPayment results = if isFinite quotient then quotient else 0) /\
  (let results := calculate pow (mkValues 10000 2 0 2000) in
   monthlyPayment results = 8000 / 24 /\
   interestEarned results = 0 /\
   totalSaved results = 10000).
Proof.
  split.
  - intros g t s Hg Ht Hs Hle results quotient.
    unfold results, calculate. cbn [goalAmount timeHorizon].
    destruct (ltb_zero g Hg) as (_ & _ & _ & -> & _).
    destruct (ltb_zero t Ht) as (Htp & _ & _ & -> & _).
    cbn [orb monthlyPayment interestEarned].
    split; [reflexivity |].
    assert (futureValueOfCurrentSavings pow (mkValues g t 0 s) = s) as Hfv.
    { unfold futureValueOfCurrentSavings, effectiveCurrentSavings.
      cbn [currentSavings goalAmount annualReturn].
      rewrite (min_within s g Hg Hle Hs).
      change (0 <? 0) with false.
      destruct Hs as [-> | ->]; reflexivity. }
    assert (plus_or_nan (Prim2SF (t * 12)) = true) as Hn
      by (apply mul_sign; [exact Htp | reflexivity]).
    unfold validPayment, computedPayment, requiredFromPayments, totalMonths.
    rewrite Hfv. cbn [goalAmount annualReturn timeHorizon].
    change (0 <? 0) with false. cbn [andb]. fold quotient.
    destruct (0 <? max 0 (g - s)) eqn:Hreq.
    + rewrite ensureValid_cases.
      assert ((quotient <? 0) = false) as ->.
      { apply plus_or_nan_ltb, div_sign; [apply max_zero_plus | exact Hn]. }
      cbn [negb]. rewrite andb_true_r. reflexivity.
    + change (ensureValid 0) with 0.
      destruct (max_zero (g - s)) as [H | [H | [H H']]].
      * unfold quotient. rewrite H.
        rewrite (is_nan_not_finite _ (nan_div (t * 12))). reflexivity.
      * unfold quotient. rewrite H.
        destruct (zero_div (t * 12) Hn) as [-> | Hnan].
        -- reflexivity.
        -- rewrite (is_nan_not_finite _ Hnan). reflexivity.
      * rewrite H in Hreq. congruence.
  - rewrite (zero_rate_pow_unused pow unusedPow) by reflexivity.
    vm_compute. repeat split.
Qed.

Lemma zero_rate_payment_witness :
  monthlyPayment (calculate unusedPow (mkValues 600 1 0 0)) = 50.
Proof.
  exact (proj2 (proj1 (zero_rate_payment unusedPow) 600 1 0
                 eq_refl eq_refl (or_introl eq_refl) eq_refl)).
Defined.


End MachineProperties.

(* ================================================================== *)
(** * Properties of the projection engine *)

Import JS JSFacts Engine EngineFacts.
Local Open Scope R_scope.

(** C2. When the goal or the horizon is not positive, the result is the
    degenerate tuple: no payment, the current savings (whatever their
    size) as principal, no interest, the goal echoed, progress 0; the
    engine returns it as an ordinary result. *)
Theorem degenerate_result (v : Values) :
  (goalAmount v <=? zero)%js = true \/ (timeHorizon v <=? zero)%js = true ->
  calculate v
  = {| monthlyPayment := Fin 0;
       totalSaved := currentSavings v;
       interestEarned := Fin 0;
       finalAmount := goalAmount v;
       progressPercentage := Fin 0 |}.
Proof. apply calculate_degenerate. Qed.

Lemma degenerate_result_witness :
  calculate (mkValues (Fin 0) (Fin 5) (Fin 7) (Fin 1000000))
  = mkResults (Fin 0) (Fin 1000000) (Fin 0) (Fin 0) (Fin 0).
Proof.
  apply (degenerate_result (mkValues (Fin 0) (Fin 5) (Fin 7) (Fin 1000000))).
  left. apply Rleb_true. lra.
Defined.

(** C3. The [finalAmount] of the result is the goal amount echoed back,
    on every input; it is not the projected total
    [totalPrincipal + interestEarned] that the engine computes: the two
    differ whenever the capped savings outgrow the goal. *)
Theorem finalAmount_echoes_goal :
  (forall v : Values, finalAmount (calculate v) = goalAmount v) /\
  (exists v : Values,
     finalAmount (calculate v) <> Engine.projectedTotal v /\
     (finalAmount (calculate v)
      <> totalSaved (calculate v) + interestEarned (calculate v))%js).
Proof.
  split.
  - apply finalAmount_calculate.
  - exists (mkValues (Fin 1000) (Fin 1) (Fin 12) (Fin 1000)).
    assert (0 < 1000) as Hg by lra. assert (0 < 1) as Ht by lra.
    assert (0 <= 12) as Ha by lra. assert (0 <= 1000) as Hs by lra.
    rewrite calculate_Fin, projectedTotal_Fin by assumption.
    js_eval. fold (Formula.projectedTotal 1000 1 12 1000).
    assert (1000 < Formula.projectedTotal 1000 1 12 1000) as Hlt.
    { assert (1000 < Formula.futureValueOfCurrentSavings 1000 1 12 1000)
        as Hfv.
      { unfold Formula.futureValueOfCurrentSavings,
          Formula.effectiveCurrentSavings.
        destruct (Rlt_dec 0 12); [| lra].
        rewrite Rmin_left by lra.
        assert (0 < 12) as Hpos by lra.
        pose proof (growth_gt_1 1 12 Ht Hpos). lra. }
      rewrite projectedTotal_gt_goal by assumption.
      exact Hfv. }
    split; intros Heq; injection Heq; lra.
Qed.



(** ** The default example: goal 50000, 5 years, 7 percent, no savings *)

Lemma default_growth : Formula.growth 5 7 = (1 + 7 / 100 / 12) ^ 60.
Proof.
  unfold Formula.growth, Formula.monthlyRate, Formula.totalMonths.
  replace (5 * 12) with (INR 60) by (rewrite INR_IZR_INZ; simpl; lra).
  apply Rpower_pow. lra.
Qed.

Lemma default_growth_bounds :
  1.4176252 < Formula.growth 5 7 < 1.4176253.
Proof. rewrite default_growth. lra. Qed.

Lemma default_payment :
  Formula.payment 50000 5 7 0
  = 50000 / ((Formula.growth 5 7 - 1) / (7 / 100 / 12)).
Proof.
  unfold Formula.payment, Formula.requiredFromPayments,
    Formula.futureValueOfCurrentSavings, Formula.effectiveCurrentSavings,
    Formula.monthlyRate.
  destruct (Rlt_dec 0 7); [| lra].
  rewrite Rmin_left by lra. rewrite Rmax_right by lra.
  f_equal. lra.
Qed.

Lemma default_payment_bounds :
  698.39 < Formula.payment 50000 5 7 0 < 698.40.
Proof.
  rewrite default_payment. pose proof default_growth_bounds as HG.
  set (G := Formula.growth 5 7) in *.
  assert (0 < (G - 1) / (7 / 100 / 12)) as HF
    by (apply Rdiv_lt_0_compat; lra).
  assert ((G - 1) / (7 / 100 / 12) = (G - 1) * (1200 / 7)) as HFeq
    by (field; lra).
  set (F := (G - 1) / (7 / 100 / 12)) in *.
  assert (50000 / F * F = 50000) as HP by (field; lra).
  set (P := 50000 / F) in *.
  assert (71.59289 < F < 71.59291) as HFb by lra.
  split; nra.
Qed.

Lemma formatCurrency_rounds (p : R) (z : Z) :
  IZR z <= Rabs p + / 2 < IZR z + 1 ->
  formatCurrency (Fin p) = formatUSD z.
Proof.
  intros H. unfold formatCurrency. js_eval.
  rewrite ZfloorZ. now rewrite (Zfloor_eq z).
Qed.

Lemma default_results :
  exists p : R,
    698.39 < p < 698.40 /\
    calculate defaultValues
    = mkResults (Fin p) (Fin (p * 60)) (Fin (50000 - p * 60)) (Fin 50000)
                (Fin 100).
Proof.
  exists (Formula.payment 50000 5 7 0).
  pose proof default_payment_bounds as HP.
  split; [exact HP |].
  unfold defaultValues.
  rewrite calculate_Fin, computedProgress_Fin by lra.
  assert (Formula.totalPrincipal 50000 5 7 0
          = Formula.payment 50000 5 7 0 * 60) as Hprincipal.
  { unfold Formula.totalPrincipal, Formula.effectiveCurrentSavings,
      Formula.totalMonths.
    rewrite Rmin_left by lra. lra. }
  assert (Formula.projectedTotal 50000 5 7 0 = 50000) as Htotal.
  { apply projectedTotal_eq_goal; try lra.
    - unfold Formula.futureValueOfCurrentSavings,
        Formula.effectiveCurrentSavings.
      rewrite Rmin_left by lra. destruct (Rlt_dec 0 7); lra.
    - unfold Formula.totalMonths. lra. }
  unfold Formula.projectedTotal in Htotal.
  rewrite Hprincipal in *.
  do 2 f_equal. lra.
Qed.

(** C9, as stated, fails: on the default input the payment is below 699,
    more than 11 away from 710.1, and is displayed as [$698]. *)
Lemma default_payment_is_not_710 :
  exists p : R,
    monthlyPayment (calculate defaultValues) = Fin p /\
    p < 699 /\
    formatCurrency (Fin p) <> "$710"%string.
Proof.
  destruct default_results as (p & Hp & Hres).
  exists p. rewrite Hres. split; [reflexivity |]. split; [lra |].
  rewrite (formatCurrency_rounds p 698).
  - discriminate.
  - rewrite Rabs_pos_eq by lra. lra.
Qed.

(** C9, amended. On the default input (goal 50000, 5 years, 7 percent,
    no savings) the engine uses [monthlyRate = 0.07 / 12] and
    [totalMonths = 60] and returns a monthly payment between 698.39 and
    698.40, displayed as [$698]; the interest is positive and principal
    plus interest is 50000. *)
Theorem default_example :
  Engine.monthlyRate defaultValues = Fin (0.07 / 12) /\
  Engine.totalMonths defaultValues = Fin 60 /\
  exists p principal interest : R,
    monthlyPayment (calculate defaultValues) = Fin p /\
    totalSaved (calculate defaultValues) = Fin principal /\
    interestEarned (calculate defaultValues) = Fin interest /\
    698.39 < p < 698.40 /\
    formatCurrency (Fin p) = "$698"%string /\
    0 < interest /\
    principal + interest = 50000.
Proof.
  split; [| split].
  - unfold defaultValues. rewrite monthlyRate_Fin.
    f_equal; unfold Formula.monthlyRate; lra.
  - unfold defaultValues. rewrite totalMonths_Fin.
    f_equal; unfold Formula.totalMonths; lra.
  - destruct default_results as (p & Hp & Hres).
    exists p, (p * 60), (50000 - p * 60). rewrite Hres.
    repeat split; try lra.
    rewrite (formatCurrency_rounds p 698).
    + reflexivity.
    + rewrite Rabs_pos_eq by lra. lra.
Qed.

(** ** The progress bar *)

(** A half-month horizon at 3600 percent: the growth factor is
    [sqrt 4 = 2]. *)
Lemma half_month_growth : Formula.growth (/ 24) 3600 = 2.
Proof.
  unfold Formula.growth, Formula.monthlyRate, Formula.totalMonths.
  replace (1 + 3600 / 100 / 12) with 4 by lra.
  replace (/ 24 * 12) with (/ 2) by lra.
  rewrite Rpower_sqrt by lra.
  replace 4 with (2 * 2) by lra. apply sqrt_square. lra.
Qed.

Lemma half_month_results :
  calculate (mkValues (Fin 1000) (Fin (/ 24)) (Fin 3600) (Fin 0))
  = mkResults (Fin 3000) (Fin 1500) (Fin 0) (Fin 1000) (Fin 100).
Proof.
  rewrite calculate_Fin, computedProgress_Fin by lra.
  assert (Formula.payment 1000 (/ 24) 3600 0 = 3000) as Hp.
  { unfold Formula.payment, Formula.requiredFromPayments,
      Formula.futureValueOfCurrentSavings, Formula.effectiveCurrentSavings.
    rewrite half_month_growth. unfold Formula.monthlyRate.
    destruct (Rlt_dec 0 3600); [| lra].
    rewrite Rmin_left by lra. rewrite Rmax_right by lra. lra. }
  assert (Formula.totalPrincipal 1000 (/ 24) 3600 0 = 1500) as Hs.
  { unfold Formula.totalPrincipal. rewrite Hp.
    unfold Formula.effectiveCurrentSavings, Formula.totalMonths.
    rewrite Rmin_left by lra. lra. }
  assert (Formula.interestEarned 1000 (/ 24) 3600 0 = 0) as Hi.
  { unfold Formula.interestEarned. rewrite Hs, Hp, half_month_growth.
    unfold Formula.futureValueOfCurrentSavings,
      Formula.effectiveCurrentSavings, Formula.monthlyRate.
    destruct (Rlt_dec 0 3600); [| lra].
    rewrite Rmin_left by lra. apply Rmax_left. lra. }
  rewrite Hp, Hs, Hi. reflexivity.
Qed.

(** A number above zero is not at most zero. *)
Lemma gt_zero_not_le (x : number) :
  (x >? zero)%js = true -> (x <=? zero)%js = false.
Proof.
  unfold gt, zero. destruct x as [x | | |]; cbn [lt le];
    try discriminate; try reflexivity.
  intros H. apply Rltb_iff in H. apply Rleb_false. exact H.
Qed.

(** [Math.min(100, x)] is [NaN], when [x] is, or at most 100. *)
Lemma min_hundred_clamp (x : number) :
  isNaN (min hundred x) = true \/ (min hundred x <=? hundred)%js = true.
Proof.
  unfold hundred. destruct x as [x | | |]; cbn [min lt].
  - right. unfold Rltb. destruct (Rlt_dec x 100); cbn [le];
      apply Rleb_true; lra.
  - right. cbn [le]. apply Rleb_true. lra.
  - right. reflexivity.
  - left. reflexivity.
Qed.

(** C8. The width that [displayResults] gives the progress bar is
    [totalSaved * 100 / finalAmount], where [finalAmount] is the echoed
    goal; it is not clamped and passes 100 when the principal passes the
    goal: it is 500 for goal 100, horizon 0 and savings 500 (the
    degenerate branch) and 150 for goal 1000 over half a month at 3600
    percent (the main one).  The [progressPercentage] field is
    [min(100, (totalSaved + interestEarned) / goalAmount * 100)], which
    the clamp keeps at 100 or under, and the width does not depend on
    it. *)
Theorem progress_bar_ratio :
  (forall v : Values,
     Form.progressFillWidth (Form.displayResults (calculate v))
     = (totalSaved (calculate v) * hundred / goalAmount v)%js) /\
  (forall payment principal interest final q1 q2 : number,
     Form.progressFillWidth
       (Form.displayResults (mkResults payment principal interest final q1))
     = Form.progressFillWidth
         (Form.displayResults
            (mkResults payment principal interest final q2))) /\
  (let results := calculate (mkValues (Fin 100) (Fin 0) (Fin 7) (Fin 500)) in
   Form.progressFillWidth (Form.displayResults results) = Fin 500 /\
   progressPercentage results = Fin 0) /\
  (let results :=
     calculate (mkValues (Fin 1000) (Fin (/ 24)) (Fin 3600) (Fin 0)) in
   Form.progressFillWidth (Form.displayResults results) = Fin 150 /\
   progressPercentage results = Fin 100) /\
  (forall v : Values,
     (goalAmount v >? zero)%js = true -> (timeHorizon v >? zero)%js = true ->
     progressPercentage (calculate v)
     = min hundred
         ((totalSaved (calculate v) + interestEarned (calculate v))
          / goalAmount v * hundred)%js) /\
  (forall x : number,
     isNaN (min hundred x) = true \/ (min hundred x <=? hundred)%js = true).
Proof.
  repeat apply conj.
  - intros v. unfold Form.displayResults, progressWidth.
    cbn [Form.progressFillWidth].
    now rewrite finalAmount_calculate.
  - reflexivity.
  - rewrite calculate_degenerate
      by (right; apply Rleb_true; cbn [timeHorizon]; lra).
    unfold Form.displayResults, progressWidth.
    cbn [Form.progressFillWidth]. unfold_consts; js_eval. decide_R.
    f_equal. lra.
  - rewrite calculate_degenerate
      by (right; apply Rleb_true; cbn [timeHorizon]; lra).
    reflexivity.
  - rewrite half_month_results.
    unfold Form.displayResults, progressWidth.
    cbn [Form.progressFillWidth]. unfold_consts; js_eval. decide_R.
    f_equal. lra.
  - rewrite half_month_results. reflexivity.
  - intros v Hg Ht. unfold calculate.
    rewrite (gt_zero_not_le _ Hg), (gt_zero_not_le _ Ht).
    cbn [orb progressPercentage totalSaved interestEarned].
    unfold computedProgress, projectedTotal. rewrite Hg. reflexivity.
  - apply min_hundred_clamp.
Qed.

Lemma progress_bar_ratio_witness :
  let v := mkValues (Fin 1000) (Fin 1) (Fin 0) (Fin 0) in
  progressPercentage (calculate v)
  = min hundred
      ((totalSaved (calculate v) + interestEarned (calculate v))
       / goalAmount v * hundred)%js.
Proof.
  destruct progress_bar_ratio as (_ & _ & _ & _ & H & _).
  apply (H (mkValues (Fin 1000) (Fin 1) (Fin 0) (Fin 0)));
    unfold gt, zero; cbn [goalAmount timeHorizon lt]; apply Rltb_true; lra.
Defined.

(** ** The internally computed progress *)

(** C10, as stated, fails: with savings equal to the goal (so within
    it) at 12 percent over one year, principal plus interest is above
    the goal, not equal to it. *)
Lemma projected_total_above_goal_within_cap :
  let v := mkValues (Fin 1000) (Fin 1) (Fin 12) (Fin 1000) in
  1000 <= 1000 /\
  exists total : R,
    (totalSaved (calculate v) + interestEarned (calculate v))%js
    = Fin total /\
    total <> 1000.
Proof.
  intros v. split; [lra |].
  exists (Formula.projectedTotal 1000 1 12 1000).
  unfold v. rewrite calculate_Fin by lra. js_eval.
  split; [reflexivity |].
  assert (1000 < Formula.futureValueOfCurrentSavings 1000 1 12 1000) as Hfv.
  { unfold Formula.futureValueOfCurrentSavings,
      Formula.effectiveCurrentSavings.
    destruct (Rlt_dec 0 12); [| lra].
    rewrite Rmin_left by lra.
    assert (1 < Formula.growth 1 12) by (apply growth_gt_1; lra).
    lra. }
  rewrite projectedTotal_gt_goal by (assumption || lra). lra.
Qed.

(** C10, amended. With a positive goal and horizon and finite
    non-negative inputs, in exact real arithmetic the computed
    [progressPercentage] is exactly 100: the projected total
    [totalSaved + interestEarned] is at least the goal, so the clamp
    [min(100, total / goalAmount * 100)] yields 100.  The total equals
    the goal at a zero rate, and at a positive rate when the grown capped
    savings do not exceed the goal and the horizon is at least one
    month; it is above the goal when the grown capped savings exceed
    the goal. *)
Theorem progress_is_100 (g t a s : R) :
  0 < g -> 0 < t -> 0 <= a -> 0 <= s ->
  let v := mkValues (Fin g) (Fin t) (Fin a) (Fin s) in
  progressPercentage (calculate v) = Fin 100 /\
  exists total grown : R,
    (totalSaved (calculate v) + interestEarned (calculate v))%js
    = Fin total /\
    Engine.futureValueOfCurrentSavings v = Fin grown /\
    progressPercentage (calculate v)
    = min hundred (Fin total / Fin g * hundred)%js /\
    g <= total /\
    (a = 0 -> total = g) /\
    (0 < a -> grown <= g -> 1 <= t * 12 -> total = g) /\
    (g < grown -> g < total).
Proof.
  intros Hg Ht Ha Hs v. unfold v.
  pose proof (computedProgress_Fin g t a s Hg Ht Ha Hs) as H100.
  rewrite calculate_Fin by assumption. js_eval.
  split; [exact H100 |].
  exists (Formula.projectedTotal g t a s),
    (Formula.futureValueOfCurrentSavings g t a s).
  split; [reflexivity |].
  split; [apply futureValueOfCurrentSavings_Fin; assumption |].
  split.
  { unfold computedProgress. cbn [goalAmount].
    rewrite projectedTotal_Fin by assumption.
    unfold_consts; js_eval. unfold Rltb.
    destruct (Rlt_dec 0 g); [reflexivity | lra]. }
  split; [apply projectedTotal_ge_goal; assumption |].
  split; [| split].
  - intros Hz. unfold Formula.projectedTotal.
    rewrite zero_rate_principal, zero_rate_interest by assumption. lra.
  - intros Hpos Hfv Hn. apply projectedTotal_eq_goal; assumption.
  - intros Hfv. rewrite projectedTotal_gt_goal by assumption. exact Hfv.
Qed.

Lemma progress_is_100_witness :
  progressPercentage
    (calculate (mkValues (Fin 50000) (Fin 5) (Fin 7) (Fin 0))) = Fin 100.
Proof.
  apply (progress_is_100 50000 5 7 0); lra.
Defined.

(* ================================================================== *)
(** * The sanitizer on the rate field *)

Import Sanitizer.

(** C7. The two examples of the specification hold, but a rate text with
    two decimal points is not truncated: the test for "exactly one
    point" looks at the pieces of the text before the points were
    collapsed.  ["1.2.345"] becomes ["1.2345"], four digits after the
    point, where the normal form of the specification is ["1.23"]; a
    second pass over the result does truncate it. *)
Theorem sanitizer_rate_two_points :
  sanitized goalAmountInput "12.34.56" = "12.3456"%string /\
  sanitized annualReturnInput "7.6789" = "7.67"%string /\
  sanitized annualReturnInput "1.2.345" = "1.2345"%string /\
  fraction_digits (sanitized annualReturnInput "1.2.345") = 4%nat /\
  spec_normalized annualReturnInput "1.2.345" = "1.23"%string /\
  sanitized annualReturnInput (sanitized annualReturnInput "1.2.345")
  = "1.23"%string /\
  value (sanitizeInput (mkInput annualReturnInput "1.2.345" 7))
  = "1.2345"%string.
Proof. repeat split; reflexivity. Qed.

(* ================================================================== *)
(** * More about the sanitizer *)

Module SanitizerMore.

Import Sanitizer SanitizerFacts Texts.
Local Open Scope string_scope.

Lemma Subsequence_refl (s : string) : Subsequence s s.
Proof. induction s; constructor; assumption. Qed.

Lemma Subsequence_trans (a b c : string) :
  Subsequence a b -> Subsequence b c -> Subsequence a c.
Proof.
  intros Hab Hbc. revert a Hab.
  induction Hbc as [| x b c Hbc IH | x b c Hbc IH]; intros a Hab.
  - exact Hab.
  - inversion Hab; subst.
    + constructor. now apply IH.
    + apply sub_drop. now apply IH.
  - apply sub_drop. now apply IH.
Qed.

Lemma Subsequence_length (a b : string) :
  Subsequence a b -> (String.length a <= String.length b)%nat.
Proof. induction 1; simpl; lia. Qed.

Lemma strip_Subsequence (s : string) : Subsequence (strip s) s.
Proof.
  induction s as [| c s IH]; simpl; [constructor |].
  destruct (is_numeric c); constructor; exact IH.
Qed.

Lemma remove_dots_Subsequence (s : string) : Subsequence (remove_dots s) s.
Proof.
  induction s as [| c s IH]; simpl; [constructor |].
  destruct (is_dot c); constructor; exact IH.
Qed.

Lemma keep_first_dot_Subsequence (s : string) :
  Subsequence (keep_first_dot s) s.
Proof.
  induction s as [| c s IH]; simpl; [constructor |].
  destruct (is_dot c); constructor;
    [apply remove_dots_Subsequence | exact IH].
Qed.

Lemma substring_Subsequence (n : nat) (s : string) :
  Subsequence (substring 0 n s) s.
Proof.
  revert s. induction n as [| n IH]; intros s.
  - destruct s; simpl; [constructor |].
    apply sub_drop. clear. induction s; constructor; assumption.
  - destruct s as [| c s]; simpl; constructor. apply IH.
Qed.

Lemma truncate_fraction_Subsequence (n : nat) (s : string) :
  Subsequence (truncate_fraction n s) s.
Proof.
  induction s as [| c s IH]; simpl; [constructor |].
  destruct (is_dot c); constructor;
    [apply substring_Subsequence | exact IH].
Qed.

Lemma substring_all (n : nat) (s : string) :
  (String.length s <= n)%nat -> substring 0 n s = s.
Proof.
  revert s. induction n as [| n IH]; intros s H.
  - destruct s; simpl in *; [reflexivity | lia].
  - destruct s as [| c s]; simpl in *; [reflexivity |].
    rewrite IH by lia. reflexivity.
Qed.

Lemma substring_length (n : nat) (s : string) :
  (String.length (substring 0 n s) <= n)%nat.
Proof.
  revert s. induction n as [| n IH]; intros s.
  - destruct s; simpl; lia.
  - destruct s as [| c s]; simpl; [lia |]. specialize (IH s). lia.
Qed.

Lemma truncate_fraction_idempotent (n : nat) (s : string) :
  truncate_fraction n (truncate_fraction n s) = truncate_fraction n s.
Proof.
  induction s as [| c s IH]; simpl; [reflexivity |].
  destruct (is_dot c) eqn:Hd; simpl; rewrite Hd.
  - rewrite (substring_all n (substring 0 n s)); [reflexivity |].
    apply substring_length.
  - now rewrite IH.
Qed.

Lemma split_dot_nodot (s : string) :
  count_dots s = 0%nat -> split_dot s = [s].
Proof.
  induction s as [| c s IH]; simpl; [reflexivity |].
  destruct (is_dot c); [discriminate |]. intros H. now rewrite IH.
Qed.

Lemma count_dots_Subsequence (a b : string) :
  Subsequence a b -> (count_dots a <= count_dots b)%nat.
Proof. induction 1; simpl; lia. Qed.

(** The sanitizer written with the two normal-form functions: the first
    point is kept, and the rate field is truncated when the stripped text
    has exactly one point. *)
Lemma sanitized_cases (f : Field) (raw : string) :
  sanitized f raw
  = if Field_eqb f annualReturnInput
       && (count_dots (strip raw) =? 1)%nat
    then truncate_fraction 2 (strip raw)
    else keep_first_dot (strip raw).
Proof.
  unfold sanitized.
  pose proof (split_dot_length (strip raw)) as L.
  destruct (split_dot (strip raw)) as [| p0 [| p1 [| p2 rest]]] eqn:E;
    simpl in L; try discriminate.
  - assert (count_dots (strip raw) = 0)%nat as D by lia. rewrite D.
    simpl. rewrite andb_false_r. symmetry. apply keep_first_dot_id. lia.
  - assert (count_dots (strip raw) = 1)%nat as D by lia. rewrite D.
    simpl. destruct (Field_eqb f annualReturnInput); simpl.
    + symmetry. unfold part; simpl. now apply split_dot_truncate.
    + symmetry. apply keep_first_dot_id. lia.
  - assert (count_dots (strip raw) <> 1)%nat as D by lia.
    apply Nat.eqb_neq in D. rewrite D. rewrite andb_false_r.
    cbn [List.length Nat.ltb Nat.leb Nat.eqb andb].
    rewrite andb_false_r.
    rewrite <- E. apply split_dot_collapse. rewrite E. simpl. lia.
Qed.

Lemma sanitized_clean (f : Field) (raw : string) : clean (sanitized f raw).
Proof. apply sanitized_numeric. Qed.

Lemma sanitized_of_clean (f : Field) (s : string) :
  clean s ->
  sanitized f s
  = if Field_eqb f annualReturnInput then truncate_fraction 2 s else s.
Proof.
  intros [N D]. rewrite sanitized_cases, (strip_id s N).
  destruct (Field_eqb f annualReturnInput); simpl.
  - destruct (count_dots s =? 1)%nat eqn:E; [reflexivity |].
    apply Nat.eqb_neq in E.
    rewrite keep_first_dot_id by lia.
    symmetry. apply truncate_fraction_id. lia.
  - apply keep_first_dot_id. lia.
Qed.

Lemma truncate_fraction_digits (n : nat) (s : string) :
  (count_dots s <= 1)%nat ->
  (fraction_digits (truncate_fraction n s) <= n)%nat.
Proof.
  unfold fraction_digits.
  induction s as [| c s IH]; simpl; [lia |].
  destruct (is_dot c) eqn:Hd; simpl; rewrite Hd; intros H.
  - assert (count_dots (substring 0 n s) = 0)%nat as D0.
    { pose proof (count_dots_Subsequence _ _ (substring_Subsequence n s)).
      lia. }
    rewrite (split_dot_nodot _ D0). apply substring_length.
  - specialize (IH H).
    destruct (split_dot (truncate_fraction n s)) as [| q [| q' qs]];
      simpl in *; lia.
Qed.

Lemma truncate_fraction_fixed (n : nat) (s : string) :
  (count_dots s <= 1)%nat -> (fraction_digits s <= n)%nat ->
  truncate_fraction n s = s.
Proof.
  unfold fraction_digits.
  induction s as [| c s IH]; simpl; [reflexivity |].
  destruct (is_dot c) eqn:Hd; intros H F.
  - rewrite (split_dot_nodot s) in F by lia. simpl in F.
    now rewrite substring_all.
  - rewrite IH; [reflexivity | exact H |].
    destruct (split_dot s) as [| q [| q' qs]]; simpl in *; lia.
Qed.

End SanitizerMore.

(* ================================================================== *)
(** * Further properties: the sanitizer *)

Section SanitizerProperties.

Import Sanitizer SanitizerFacts Texts SanitizerMore.
Local Open Scope string_scope.

(** X1. Whatever the field and the raw text, the sanitized text holds
    only digits and points, at most one point, and is the raw text with
    characters left out: nothing is added or reordered. *)
Theorem sanitized_is_clean_subsequence (f : Field) (raw : string) :
  all_chars is_numeric (sanitized f raw) = true /\
  (count_dots (sanitized f raw) <= 1)%nat /\
  Subsequence (sanitized f raw) raw /\
  (String.length (sanitized f raw) <= String.length raw)%nat.
Proof.
  destruct (sanitized_numeric f raw) as [N D].
  assert (Subsequence (sanitized f raw) raw) as S.
  { rewrite sanitized_cases.
    destruct (Field_eqb f annualReturnInput
              && (count_dots (strip raw) =? 1)%nat).
    - eapply Subsequence_trans;
        [apply truncate_fraction_Subsequence | apply strip_Subsequence].
    - eapply Subsequence_trans;
        [apply keep_first_dot_Subsequence | apply strip_Subsequence]. }
  repeat split; try assumption. now apply Subsequence_length.
Qed.

(** X2. On the goal, horizon and savings fields the sanitized text is
    the raw text with every character other than a digit or a point
    removed, and then every point after the first removed. *)
Theorem sanitized_amount_keeps_first_point (f : Field) (raw : string) :
  f <> annualReturnInput ->
  sanitized f raw = keep_first_dot (strip raw).
Proof.
  intros Hf. rewrite sanitized_cases.
  destruct f; try reflexivity. contradiction.
Qed.

Lemma sanitized_amount_keeps_first_point_witness :
  sanitized goalAmountInput "$1,250.50.7"
  = keep_first_dot (strip "$1,250.50.7").
Proof.
  apply (sanitized_amount_keeps_first_point goalAmountInput "$1,250.50.7").
  discriminate.
Defined.

(** X3. Sanitizing is idempotent on the goal, horizon and savings
    fields, and on the rate field when the stripped text has at most one
    point; on the rate field in general a second pass may still change
    the text, a third never does. *)
Theorem sanitized_passes :
  (forall (f : Field) (raw : string),
     f <> annualReturnInput \/ (count_dots (strip raw) <= 1)%nat ->
     sanitized f (sanitized f raw) = sanitized f raw) /\
  (forall (f : Field) (raw : string),
     sanitized f (sanitized f (sanitized f raw))
     = sanitized f (sanitized f raw)).
Proof.
  split.
  - intros f raw H.
    rewrite (sanitized_of_clean f _ (sanitized_clean f raw)).
    destruct (Field_eqb f annualReturnInput) eqn:E; [| reflexivity].
    destruct H as [H | H]; [destruct f; try discriminate; contradiction |].
    rewrite (sanitized_cases f raw), E. simpl.
    destruct (count_dots (strip raw) =? 1)%nat eqn:E1.
    + apply truncate_fraction_idempotent.
    + apply Nat.eqb_neq in E1.
      rewrite keep_first_dot_id by lia.
      apply truncate_fraction_id. lia.
  - intros f raw.
    rewrite (sanitized_of_clean f (sanitized f (sanitized f raw)))
      by apply sanitized_clean.
    rewrite (sanitized_of_clean f (sanitized f raw))
      by apply sanitized_clean.
    destruct (Field_eqb f annualReturnInput); [| reflexivity].
    apply truncate_fraction_idempotent.
Qed.

Lemma sanitized_passes_witness :
  sanitized annualReturnInput (sanitized annualReturnInput "7.6789x")
  = sanitized annualReturnInput "7.6789x".
Proof.
  apply (proj1 sanitized_passes annualReturnInput "7.6789x").
  right. simpl. lia.
Defined.

(** X4. On the rate field the sanitized text has at most two digits
    after the point when the stripped text has at most one point, and
    after two passes in every case. *)
Theorem rate_fraction_digits :
  (forall raw : string,
     (count_dots (strip raw) <= 1)%nat ->
     (fraction_digits (sanitized annualReturnInput raw) <= 2)%nat) /\
  (forall raw : string,
     (fraction_digits
        (sanitized annualReturnInput (sanitized annualReturnInput raw))
      <= 2)%nat).
Proof.
  split.
  - intros raw H. rewrite sanitized_cases. cbn [Field_eqb andb].
    destruct (count_dots (strip raw) =? 1)%nat eqn:E.
    + apply truncate_fraction_digits. exact H.
    + apply Nat.eqb_neq in E.
      rewrite keep_first_dot_id by exact H.
      unfold fraction_digits.
      rewrite split_dot_nodot by lia. simpl. lia.
  - intros raw.
    destruct (sanitized_clean annualReturnInput raw) as [N D].
    rewrite (sanitized_of_clean annualReturnInput _ (conj N D)).
    cbn [Field_eqb]. apply truncate_fraction_digits. exact D.
Qed.

Lemma rate_fraction_digits_witness :
  (fraction_digits (sanitized annualReturnInput "12.3456%") <= 2)%nat.
Proof.
  apply (proj1 rate_fraction_digits "12.3456%"). simpl. lia.
Defined.

(** X5. [sanitizeInput] leaves an input untouched, cursor included, when
    its text holds only digits and at most one point, with at most two
    digits after the point on the rate field. *)
Theorem sanitizeInput_leaves_clean_text (input : Input) :
  all_chars is_numeric (value input) = true ->
  (count_dots (value input) <= 1)%nat ->
  (field input = annualReturnInput ->
   (fraction_digits (value input) <= 2)%nat) ->
  sanitizeInput input = input.
Proof.
  intros N D F. unfold sanitizeInput.
  assert (sanitized (field input) (value input) = value input) as E.
  { rewrite (sanitized_of_clean _ _ (conj N D)).
    destruct (field input) eqn:Ef; try reflexivity.
    cbn [Field_eqb]. apply truncate_fraction_fixed; auto. }
  rewrite E, String.eqb_refl. reflexivity.
Qed.

Lemma sanitizeInput_leaves_clean_text_witness :
  sanitizeInput (mkInput annualReturnInput "7.25" 4)
  = mkInput annualReturnInput "7.25" 4.
Proof.
  apply (sanitizeInput_leaves_clean_text (mkInput annualReturnInput "7.25" 4)).
  - reflexivity.
  - vm_compute. lia.
  - intros _. vm_compute. lia.
Defined.

(** X6. [sanitizeInput] keeps the field, never moves the cursor to the
    right, and leaves a cursor that was inside the text inside the new
    text; its new text is the sanitized one. *)
Theorem sanitizeInput_cursor (input : Input) :
  field (sanitizeInput input) = field input /\
  value (sanitizeInput input) = sanitized (field input) (value input) /\
  (selectionStart (sanitizeInput input) <= selectionStart input)%nat /\
  ((selectionStart input <= String.length (value input))%nat ->
   (selectionStart (sanitizeInput input)
    <= String.length (value (sanitizeInput input)))%nat).
Proof.
  unfold sanitizeInput.
  destruct (String.eqb (value input) (sanitized (field input) (value input)))
    eqn:E.
  - apply String.eqb_eq in E. repeat split; auto.
  - cbn [field value selectionStart]. repeat split; auto; lia.
Qed.

Lemma sanitizeInput_cursor_witness :
  (selectionStart (sanitizeInput (mkInput goalAmountInput "1a2b3" 5))
   <= String.length
        (value (sanitizeInput (mkInput goalAmountInput "1a2b3" 5))))%nat.
Proof.
  apply (sanitizeInput_cursor (mkInput goalAmountInput "1a2b3" 5)).
  vm_compute. lia.
Defined.

End SanitizerProperties.

(* ================================================================== *)
(** * Further properties: the keypress filter *)

Section KeyboardProperties.

Import Sanitizer SanitizerFacts Texts SanitizerMore Keyboard.
Local Open Scope string_scope.

Lemma includes_dot_count (s : string) :
  includes_dot s = false <-> count_dots s = 0%nat.
Proof.
  induction s as [| c s IH]; simpl; [tauto |].
  destruct (is_dot c); simpl; [split; discriminate | exact IH].
Qed.

Lemma clean_app (a b : string) :
  all_chars is_numeric (a ++ b) = true ->
  all_chars is_numeric a = true /\ all_chars is_numeric b = true.
Proof. rewrite all_chars_app. apply andb_true_iff. Qed.

(** X7. When a key that types one character is let through by the
    keypress filter with neither Ctrl nor Meta held, and the text held
    only digits and at most one point, the text with the selection
    replaced by that character still does, and the sanitizer of the goal,
    horizon and savings fields leaves it as it is. *)
Theorem accepted_key_keeps_text_clean
    (e : KeyEvent) (before selected after : string) :
  ctrlKey e = false -> metaKey e = false ->
  String.length (key e) = 1%nat ->
  clean (replaceSelection before selected after) ->
  keypressPrevented e (replaceSelection before selected after) = false ->
  clean (replaceSelection before (key e) after) /\
  forall f : Field,
    f <> annualReturnInput ->
    sanitized f (replaceSelection before (key e) after)
    = replaceSelection before (key e) after.
Proof.
  unfold replaceSelection.
  intros Hc Hm Hlen [N D] Hp.
  assert (clean (before ++ key e ++ after)) as Hclean.
  { unfold keypressPrevented in Hp. rewrite Hc, Hm in Hp.
    apply orb_false_iff in Hp as [Hallowed Hdot].
    rewrite !andb_true_r in Hallowed. apply negb_false_iff in Hallowed.
    apply clean_app in N as [Nb N]. apply clean_app in N as [_ Na].
    rewrite !count_dots_app in D.
    unfold includes, allowedKeys in Hallowed. cbn [existsb] in Hallowed.
    repeat (apply orb_true_iff in Hallowed;
            destruct Hallowed as [Hallowed | Hallowed]);
      try discriminate;
      apply String.eqb_eq in Hallowed; rewrite Hallowed in *;
      try discriminate;
      (split;
       [ rewrite !all_chars_app, Nb, Na; reflexivity
       | rewrite !count_dots_app ]);
      try (cbn [count_dots is_dot Ascii.eqb Bool.eqb Nat.add]; lia).
    cbn [String.eqb Ascii.eqb Bool.eqb andb] in Hdot.
    apply includes_dot_count in Hdot.
    rewrite !count_dots_app in Hdot.
    cbn [count_dots is_dot Ascii.eqb Bool.eqb Nat.add]. lia. }
  split; [exact Hclean |].
  intros f Hf. rewrite (sanitized_of_clean f _ Hclean).
  destruct f; try reflexivity. contradiction.
Qed.

Lemma accepted_key_keeps_text_clean_witness :
  clean (replaceSelection "12" "." "5").
Proof.
  apply (accepted_key_keeps_text_clean (mkKeyEvent "." false false)
           "12" "34" "5"); try reflexivity.
  split; [reflexivity | vm_compute; lia].
Defined.

End KeyboardProperties.

(* ================================================================== *)
(** * More about the engine *)

Module EngineMore.

Import JS JSFacts Engine EngineFacts.
Local Open Scope R_scope.

Lemma nonNegative_value (parsed : number) :
  nonNegative parsed
  = match parsed with
    | Fin x => Fin (Rmax 0 x)
    | PInf => PInf
    | NInf | NaN => Fin 0
    end.
Proof.
  unfold nonNegative, or_else, truthy, Reqb.
  destruct parsed as [x | | |]; unfold_consts; try reflexivity.
  - destruct (Req_dec_T x 0) as [-> |]; cbn [negb]; apply max_Fin.
  - rewrite max_Fin. f_equal. apply Rmax_left. lra.
Qed.

Section Finite.

Variables g t a s : R.
Hypothesis Hg : 0 < g.
Hypothesis Ht : 0 < t.
Hypothesis Ha : 0 <= a.
Hypothesis Hs : 0 <= s.

Local Abbreviation v := (mkValues (Fin g) (Fin t) (Fin a) (Fin s)).

Lemma payment_zero_iff :
  Formula.payment g t a s = 0
  <-> g <= Formula.futureValueOfCurrentSavings g t a s.
Proof.
  assert (0 < Formula.totalMonths t) as Hn by (apply totalMonths_pos; assumption).
  unfold Formula.payment, Formula.requiredFromPayments.
  set (fv := Formula.futureValueOfCurrentSavings g t a s).
  destruct (Rlt_dec 0 a) as [Hpos | Hzero].
  - assert (0 < (Formula.growth t a - 1) / Formula.monthlyRate a) as HF
      by (apply factor_pos; assumption).
    set (F := (Formula.growth t a - 1) / Formula.monthlyRate a) in *.
    split; intros H.
    + apply (f_equal (fun x => x * F)) in H.
      unfold Rdiv in H. rewrite Rmult_assoc, Rinv_l, Rmult_1_r, Rmult_0_l in H
        by lra.
      revert H. case_Rmax; lra.
    + rewrite Rmax_left by lra. unfold Rdiv. ring.
  - set (n := Formula.totalMonths t) in *.
    split; intros H.
    + apply (f_equal (fun x => x * n)) in H.
      unfold Rdiv in H. rewrite Rmult_assoc, Rinv_l, Rmult_1_r, Rmult_0_l in H
        by lra.
      revert H. case_Rmax; lra.
    + rewrite Rmax_left by lra. unfold Rdiv. ring.
Qed.

End Finite.

Section InfiniteHorizon.

Variables g a s : R.
Hypothesis Hg : 0 < g.
Hypothesis Ha : 0 <= a.
Hypothesis Hs : 0 <= s.

Local Abbreviation v := (mkValues (Fin g) PInf (Fin a) (Fin s)).

Lemma infinite_totalMonths : Engine.totalMonths v = PInf.
Proof.
  unfold Engine.totalMonths; unfold_consts; js_eval.
  unfold inf_of_sign. decide_R. reflexivity.
Qed.

Lemma infinite_monthlyRate :
  Engine.monthlyRate v = Fin (Formula.monthlyRate a).
Proof. exact (monthlyRate_Fin g 1 a s). Qed.

Lemma infinite_effective :
  Engine.effectiveCurrentSavings v = Fin (Rmin s g).
Proof. unfold Engine.effectiveCurrentSavings; js_eval. apply min_Fin. Qed.

Lemma infinite_growth : 0 < a -> Engine.growth v = PInf.
Proof.
  intros Hpos. unfold Engine.growth.
  rewrite infinite_totalMonths, infinite_monthlyRate.
  assert (0 < Formula.monthlyRate a) as Hr by (unfold Formula.monthlyRate; lra).
  unfold one; js_eval. unfold pow, pow_inf.
  rewrite Rabs_pos_eq by lra. decide_R. reflexivity.
Qed.

Lemma infinite_computedPayment : Engine.computedPayment v = Fin 0.
Proof.
  unfold Engine.computedPayment, Engine.requiredFromPayments,
    Engine.futureValueOfCurrentSavings, Engine.futureValueFactor.
  rewrite infinite_totalMonths, infinite_monthlyRate, infinite_effective.
  assert (0 <= Rmin s g) as He by (apply Rmin_glb; lra).
  destruct (Rlt_dec 0 a) as [Hpos | Hzero].
  - rewrite (infinite_growth Hpos).
    assert (0 < Formula.monthlyRate a) as Hr
      by (unfold Formula.monthlyRate; lra).
    unfold_consts; js_eval. unfold Rltb, inf_of_sign.
    destruct (Rlt_dec 0 (Rmin s g)); destruct (Rlt_dec 0 a); try lra;
      js_eval; rewrite ?max_Fin; js_eval; unfold Rltb.
    + change (max (Fin 0) NInf) with (Fin 0). js_eval. unfold Rltb.
      decide_R. reflexivity.
    + destruct (Rlt_dec 0 (Rmax 0 (g + - 0))); [| reflexivity].
      destruct (Rlt_dec 0 (Formula.monthlyRate a)); [| lra].
      cbn [andb]. destruct (Rlt_dec (Formula.monthlyRate a) 0); [lra |].
      reflexivity.
  - unfold_consts; js_eval. unfold Rltb.
    destruct (Rlt_dec 0 a); [lra |].
    destruct (Rlt_dec 0 (Rmin s g)); js_eval; rewrite max_Fin; js_eval;
      unfold Rltb; cbn [andb];
      match goal with
      | |- context [Rlt_dec 0 (Rmax ?x ?y)] =>
          destruct (Rlt_dec 0 (Rmax x y)); reflexivity
      end.
Qed.

End InfiniteHorizon.

End EngineMore.

(* ================================================================== *)
(** * Further properties: the engine and its inputs *)

Section EngineProperties.

Import JS JSFacts Engine EngineFacts EngineMore.
Local Open Scope R_scope.

(** X8. The clamp of [getInputValues] turns [NaN], [-Infinity] and
    every negative number into 0 and passes non-negative numbers and
    [Infinity] unchanged: the engine never receives [NaN] or a negative
    value. *)
Theorem input_values_clamp (parsed : number) :
  nonNegative parsed
  = match parsed with
    | Fin x => Fin (Rmax 0 x)
    | PInf => PInf
    | NInf | NaN => Fin 0
    end /\
  isNaN (nonNegative parsed) = false /\
  (nonNegative parsed <? zero)%js = false.
Proof.
  rewrite nonNegative_value. split; [reflexivity |].
  destruct parsed as [x | | |]; unfold_consts; js_eval;
    (split; [reflexivity |]); try reflexivity;
    apply Rltb_false; try lra.
  apply Rmax_l.
Qed.

(** X10. With a positive goal and horizon, savings at or above the goal
    count as savings equal to the goal: the result is the same, and no
    payment is required. *)
Theorem savings_above_goal_are_capped (g t a s : R) :
  0 < g -> 0 < t -> 0 <= a -> g <= s ->
  calculate (mkValues (Fin g) (Fin t) (Fin a) (Fin s))
  = calculate (mkValues (Fin g) (Fin t) (Fin a) (Fin g)) /\
  monthlyPayment (calculate (mkValues (Fin g) (Fin t) (Fin a) (Fin s)))
  = Fin 0.
Proof.
  intros Hg Ht Ha Hs.
  assert (0 <= s) as Hs0 by lra. assert (0 <= g) as Hg0 by lra.
  rewrite !calculate_Fin, !computedProgress_Fin by assumption.
  assert (Formula.effectiveCurrentSavings g s = g) as Es
    by (apply Rmin_right; exact Hs).
  assert (Formula.effectiveCurrentSavings g g = g) as Eg
    by (apply Rmin_left; lra).
  assert (Formula.futureValueOfCurrentSavings g t a s
          = Formula.futureValueOfCurrentSavings g t a g) as Efv
    by (unfold Formula.futureValueOfCurrentSavings; now rewrite Es, Eg).
  assert (Formula.payment g t a s = Formula.payment g t a g) as Ep
    by (unfold Formula.payment, Formula.requiredFromPayments;
        now rewrite Efv).
  assert (Formula.totalPrincipal g t a s = Formula.totalPrincipal g t a g)
    as Et by (unfold Formula.totalPrincipal; now rewrite Ep, Es, Eg).
  assert (Formula.interestEarned g t a s = Formula.interestEarned g t a g)
    as Ei by (unfold Formula.interestEarned; now rewrite Efv, Ep, Et).
  assert (Formula.payment g t a s = 0) as P0.
  { apply payment_zero_iff; try assumption.
    rewrite <- Es at 1. apply futureValue_bounds; assumption. }
  js_eval. split; [now rewrite Ep, Et, Ei |].
  now rewrite P0.
Qed.

Lemma savings_above_goal_are_capped_witness :
  monthlyPayment
    (calculate (mkValues (Fin 1000) (Fin 2) (Fin 5) (Fin 1500))) = Fin 0.
Proof.
  apply (savings_above_goal_are_capped 1000 2 5 1500); lra.
Defined.

(** X16. With a goal of 0 the progress bar divides by zero: the width
    written by [displayResults] is [NaN] when there are no savings and
    [Infinity] when there are some, whatever the horizon and the rate,
    beside a final amount shown as [$0]. *)
Theorem progress_bar_zero_goal (t a s : R) :
  0 <= s ->
  let shown :=
    Form.displayResults
      (calculate (mkValues (Fin 0) (Fin t) (Fin a) (Fin s))) in
  Form.progressFillWidth shown = (if Req_dec_T s 0 then NaN else PInf) /\
  Form.finalAmountText shown = "$0"%string.
Proof.
  intros Hs shown. unfold shown, Form.displayResults.
  rewrite calculate_degenerate
    by (left; apply Rleb_true; cbn [goalAmount]; lra).
  cbn [Form.progressFillWidth Form.finalAmountText finalAmount goalAmount].
  split.
  - unfold progressWidth; unfold_consts; js_eval.
    destruct (Req_dec_T 0 0) as [_ | H]; [| lra].
    unfold inf_of_sign.
    destruct (Req_dec_T s 0) as [-> | Hs0]; decide_R; reflexivity.
  - rewrite (formatCurrency_rounds 0 0); [reflexivity |].
    rewrite Rabs_R0. lra.
Qed.

Lemma progress_bar_zero_goal_witness :
  Form.progressFillWidth
    (Form.displayResults
       (calculate (mkValues (Fin 0) (Fin 5) (Fin 7) (Fin 300))))
  = PInf.
Proof.
  destruct (progress_bar_zero_goal 5 7 300) as [H _]; [lra |].
  rewrite H. destruct (Req_dec_T 300 0); [lra | reflexivity].
Defined.

(** X17. With a positive goal and horizon, no payment is required when
    the capped savings, grown over the horizon, reach the goal: the
    amount required is then 0 (or [NaN], when both are infinite), which
    is not above 0. *)
Theorem no_payment_when_savings_suffice (v : Values) :
  (goalAmount v >? zero)%js = true -> (timeHorizon v >? zero)%js = true ->
  (goalAmount v <=? Engine.futureValueOfCurrentSavings v)%js = true ->
  monthlyPayment (calculate v) = Fin 0.
Proof.
  intros Hg Ht Hle. unfold calculate.
  rewrite (gt_zero_not_le _ Hg), (gt_zero_not_le _ Ht).
  cbn [orb monthlyPayment].
  unfold Engine.validPayment, Engine.computedPayment,
    Engine.requiredFromPayments.
  destruct (goalAmount v) as [g | | |],
           (Engine.futureValueOfCurrentSavings v) as [f | | |];
    cbn [le] in Hle; try discriminate Hle;
    unfold gt, zero in Hg; cbn [lt] in Hg; try discriminate Hg.
  - apply Rleb_iff in Hle. unfold_consts; js_eval.
    rewrite max_Fin, Rmax_left by lra. js_eval.
    rewrite Rltb_false by lra. apply ensureValid_nonneg. lra.
  - unfold_consts; js_eval. change (max (Fin 0) NInf) with (Fin 0).
    js_eval. rewrite Rltb_false by lra. apply ensureValid_nonneg. lra.
  - unfold_consts; js_eval. change (max (Fin 0) NaN) with NaN.
    cbv iota. apply ensureValid_nonneg. lra.
Qed.

Lemma no_payment_when_savings_suffice_witness :
  monthlyPayment
    (calculate (mkValues (Fin 1000) (Fin 1) (Fin 0) (Fin 1000))) = Fin 0.
Proof.
  apply (no_payment_when_savings_suffice
           (mkValues (Fin 1000) (Fin 1) (Fin 0) (Fin 1000))).
  - unfold gt, zero; cbn [goalAmount lt]; apply Rltb_true; lra.
  - unfold gt, zero; cbn [timeHorizon lt]; apply Rltb_true; lra.
  - rewrite futureValueOfCurrentSavings_Fin by lra.
    cbn [goalAmount le]. apply Rleb_true.
    unfold Formula.futureValueOfCurrentSavings,
      Formula.effectiveCurrentSavings.
    destruct (Rlt_dec 0 0); [lra |]. rewrite Rmin_left; lra.
Defined.

(** X19. The validity check covers the payment only.  With an infinite
    horizon (and a positive goal) the payment is 0 but the principal is
    [0 * Infinity = NaN], whatever the rate; [displayResults] shows it
    as [$0]. *)
Theorem infinite_horizon_principal (g a s : R) :
  0 < g -> 0 <= a -> 0 <= s ->
  let results := calculate (mkValues (Fin g) PInf (Fin a) (Fin s)) in
  monthlyPayment results = Fin 0 /\
  totalSaved results = NaN /\
  Form.totalSavedText (Form.displayResults results) = "$0"%string.
Proof.
  intros Hg Ha Hs results.
  assert (Engine.validPayment (mkValues (Fin g) PInf (Fin a) (Fin s))
          = Fin 0) as Hp.
  { unfold Engine.validPayment.
    rewrite infinite_computedPayment by assumption.
    apply ensureValid_nonneg. lra. }
  assert (results
          = mkResults (Fin 0) NaN
              (Engine.totalInterestEarned
                 (mkValues (Fin g) PInf (Fin a) (Fin s)))
              (Fin g)
              (Engine.computedProgress
                 (mkValues (Fin g) PInf (Fin a) (Fin s)))) as E.
  { unfold results, calculate. unfold_consts; js_eval.
    rewrite Rleb_false by lra. cbn [orb]. rewrite Hp.
    unfold Engine.totalPrincipal, Engine.totalMonthlySavings.
    rewrite Hp, infinite_totalMonths, infinite_effective.
    js_eval. unfold inf_of_sign. decide_R. reflexivity. }
  rewrite E. repeat split.
Qed.

Lemma infinite_horizon_principal_witness :
  totalSaved (calculate (mkValues (Fin 1000) PInf (Fin 5) (Fin 10))) = NaN.
Proof.
  apply (infinite_horizon_principal 1000 5 10); lra.
Defined.

(** X20. [formatCurrency] drops the sign of the amount, prints [$0] for
    [NaN] and the infinities and for every amount under one half, and
    for the other amounts below [2^53] prints the whole number nearest
    to the absolute value, halves going up. *)
Theorem formatCurrency_rounding :
  (forall amount : number,
     formatCurrency (neg amount) = formatCurrency amount) /\
  (forall amount : number,
     isFinite amount = false -> formatCurrency amount = "$0"%string) /\
  (forall x : R, Rabs x < / 2 -> formatCurrency (Fin x) = "$0"%string) /\
  (forall (x : R) (z : Z),
     Rabs x < 9007199254740992 ->
     IZR z - / 2 <= Rabs x < IZR z + / 2 ->
     formatCurrency (Fin x) = formatUSD z).
Proof.
  assert (forall (x : R) (z : Z),
     IZR z - / 2 <= Rabs x < IZR z + / 2 ->
     formatCurrency (Fin x) = formatUSD z) as Hround.
  { intros x z H. unfold formatCurrency. js_eval.
    rewrite ZfloorZ. rewrite (Zfloor_eq z); [reflexivity | lra]. }
  repeat split.
  - intros [x | | |]; try reflexivity.
    unfold formatCurrency. js_eval. now rewrite Rabs_Ropp.
  - intros [x | | |] H; try reflexivity. discriminate.
  - intros x H. rewrite (Hround x 0%Z); [reflexivity |].
    pose proof (Rabs_pos x). lra.
  - intros x z _. apply Hround.
Qed.

Lemma formatCurrency_rounding_witness :
  formatCurrency (Fin (- 1234.5)) = "$1,235"%string.
Proof.
  destruct formatCurrency_rounding as (_ & _ & _ & H).
  rewrite (H (- 1234.5) 1235%Z); [reflexivity | |];
    rewrite Rabs_left by lra; lra.
Defined.

End EngineProperties.

(* ================================================================== *)
(** * Facts about reading numbers *)

Module ParseFacts.

Import JS JSFacts Sanitizer SanitizerFacts Texts Parse.
Local Open Scope string_scope.

Ltac compute_term t := let v := eval vm_compute in t in change t with v.

(** Evaluate [parseFloat] on a text given in full. *)
Ltac parse_eval :=
  unfold parseFloat, unsigned;
  repeat (match goal with
  | |- context [trim_start ?s] => compute_term (trim_start s)
  | |- context [Ascii.eqb ?a ?b] => compute_term (Ascii.eqb a b)
  | |- context [prefix ?a ?b] => compute_term (prefix a b)
  | |- context [read_digits ?a ?n ?s] => compute_term (read_digits a n s)
  | |- context [exponent ?s] => compute_term (exponent s)
  | |- context [Nat.eqb ?a ?b] => compute_term (Nat.eqb a b)
  | |- context [is_dot ?c] => compute_term (is_dot c)
  end; cbv beta iota zeta);
  cbn [andb orb powerRZ pow neg].

Lemma parseFloat_null : parseFloat "null" = NaN.
Proof. reflexivity. Qed.

Lemma parseFloat_0 : parseFloat "0" = Fin 0.
Proof. parse_eval. f_equal. lra. Qed.

Lemma parseFloat_5 : parseFloat "5" = Fin 5.
Proof. parse_eval. f_equal. lra. Qed.

Lemma parseFloat_7 : parseFloat "7" = Fin 7.
Proof. parse_eval. f_equal. lra. Qed.

Lemma parseFloat_50000 : parseFloat "50000" = Fin 50000.
Proof. parse_eval. f_equal. lra. Qed.

Lemma digit_value_nonneg (c : ascii) :
  is_digit c = true -> (0 <= digit_value c)%Z.
Proof.
  unfold is_digit, digit_value. intros H.
  apply andb_true_iff in H as [H _]. apply Nat.leb_le in H. lia.
Qed.

Lemma read_digits_spec (s : string) (acc : Z) (n : nat) :
  (0 <= acc)%Z ->
  exists (v : Z) (m : nat) (digits rest : string),
    read_digits acc n s = (v, m, rest) /\
    (0 <= v)%Z /\
    s = digits ++ rest /\
    all_chars is_digit digits = true /\
    m = (n + String.length digits)%nat /\
    match rest with
    | EmptyString => True
    | String c _ => is_digit c = false
    end.
Proof.
  revert acc n. induction s as [| c s IH]; intros acc n Hacc;
    cbn [read_digits].
  - exists acc, n, "", "". simpl. repeat split; auto.
  - destruct (is_digit c) eqn:Hd.
    + pose proof (digit_value_nonneg c Hd).
      destruct (IH (10 * acc + digit_value c)%Z (S n))
        as (v & m & ds & rest & E & Hv & Es & Hds & Hm & Hrest); [lia |].
      exists v, m, (String c ds), rest. simpl. rewrite Hd, Hds.
      repeat split; auto; [now rewrite <- Es | lia].
    + exists acc, n, "", (String c s). simpl. repeat split; auto.
Qed.

Lemma numeric_plain (c : ascii) :
  is_numeric c = true ->
  is_space c = false /\ Ascii.eqb c "+" = false /\ Ascii.eqb c "-" = false
  /\ Ascii.eqb c "I" = false /\ Ascii.eqb c "e" = false
  /\ Ascii.eqb c "E" = false.
Proof.
  unfold is_numeric, is_digit, is_dot, is_space. intros H.
  apply orb_true_iff in H as [H | H].
  - apply andb_true_iff in H as [H1 H2].
    apply Nat.leb_le in H1. apply Nat.leb_le in H2.
    assert (forall d : ascii, (nat_of_ascii d < 48 \/ 57 < nat_of_ascii d)%nat
                              -> Ascii.eqb c d = false) as Hne.
    { intros d Hd. apply Ascii.eqb_neq. intros ->. lia. }
    repeat split; try (apply Hne; vm_compute; lia).
    repeat (apply orb_false_iff; split);
      try (apply andb_false_iff; right; apply Nat.leb_gt; lia);
      apply Nat.eqb_neq; lia.
  - apply Ascii.eqb_eq in H. subst c. repeat split.
Qed.

Lemma prefix_Infinity (c : ascii) (s : string) :
  Ascii.eqb c "I" = false -> prefix "Infinity" (String c s) = false.
Proof.
  intros H. change ("Infinity") with (String "I" "nfinity").
  cbn [prefix]. destruct (ascii_dec "I" c) as [<- | _]; [discriminate |].
  reflexivity.
Qed.

Lemma fraction_nonneg (v frac : Z) (k : nat) (e : Z) :
  (0 <= v)%Z -> (0 <= frac)%Z ->
  (0 <= (IZR v + IZR frac / 10 ^ k) * powerRZ 10 e)%R.
Proof.
  intros Hv Hf.
  apply IZR_le in Hv. apply IZR_le in Hf.
  assert (0 < 10 ^ k)%R by (apply pow_lt; lra).
  assert (0 < powerRZ 10 e)%R by (apply powerRZ_lt; lra).
  assert (0 <= IZR frac / 10 ^ k)%R
    by (apply Rle_mult_inv_pos; assumption).
  apply Rmult_le_pos; lra.
Qed.

Lemma whole_nonneg (v : Z) (e : Z) :
  (0 <= v)%Z -> (0 <= IZR v * powerRZ 10 e)%R.
Proof.
  intros Hv. apply IZR_le in Hv.
  assert (0 < powerRZ 10 e)%R by (apply powerRZ_lt; lra).
  apply Rmult_le_pos; lra.
Qed.

(** A text of digits and at most one point reads as a non-negative
    number, unless it is empty or a lone point. *)
Lemma parseFloat_clean (s : string) :
  clean s ->
  (s = "" \/ s = "." -> parseFloat s = NaN) /\
  (s <> "" -> s <> "." ->
   exists x : R, parseFloat s = Fin x /\ (0 <= x)%R).
Proof.
  intros [N D]. split.
  - intros [-> | ->]; reflexivity.
  - intros Hne Hdot. destruct s as [| c s]; [contradiction |].
    simpl in N. apply andb_true_iff in N as [Nc Ns].
    destruct (numeric_plain c Nc) as (Hsp & Hplus & Hminus & HI & _).
    unfold parseFloat. cbn [trim_start]. rewrite Hsp, Hplus, Hminus.
    unfold unsigned. rewrite (prefix_Infinity c s HI).
    destruct (is_digit c) eqn:Hd.
    + destruct (read_digits_spec (String c s) 0 0)
        as (v & m & ds & rest & E & Hv & Es & Hds & Hm & Hrest); [lia |].
      rewrite E.
      assert (m <> 0)%nat as Hm0.
      { destruct ds; [| simpl in Hm; lia].
        simpl in Es. subst rest. congruence. }
      apply Nat.eqb_neq in Hm0. rewrite Hm0. cbn [andb].
      destruct rest as [| d rest'].
      * eexists. split; [reflexivity | now apply whole_nonneg].
      * destruct (is_dot d).
        -- destruct (read_digits_spec rest' 0 0)
             as (fr & k & ds' & rest'' & E' & Hfr & _); [lia |].
           rewrite E'.
           eexists. split; [reflexivity | now apply fraction_nonneg].
        -- eexists. split; [reflexivity | now apply whole_nonneg].
    + cbn [read_digits]. rewrite Hd.
      assert (is_dot c = true) as Hc
        by (unfold is_numeric in Nc; rewrite Hd in Nc; exact Nc).
      rewrite Hc. cbn [Nat.eqb andb].
      simpl in D. rewrite Hc in D.
      destruct (read_digits_spec s 0 0)
        as (fr & k & ds & rest & E & Hfr & Es & Hds & Hk & Hrest); [lia |].
      rewrite E.
      assert (k <> 0)%nat as Hk0.
      { destruct ds as [| d ds]; [| simpl in Hk; lia].
        simpl in Es. subst rest. destruct s as [| d s].
        - unfold is_dot in Hc. apply Ascii.eqb_eq in Hc. subst c.
          contradiction.
        - simpl in Ns. apply andb_true_iff in Ns as [Nd _].
          unfold is_numeric in Nd. rewrite Hrest in Nd. simpl in Nd.
          simpl in D. rewrite Nd in D. simpl in D. lia. }
      apply Nat.eqb_neq in Hk0. rewrite Hk0.
      eexists. split; [reflexivity |].
      now apply fraction_nonneg.
Qed.

End ParseFacts.

(* ================================================================== *)
(** * Further properties: validation, presets and reset *)

Module FormFacts.

Import JS JSFacts Engine Form.

Lemma lt_false_le (x y : number) :
  isNaN x = false -> isNaN y = false -> lt x y = false -> le y x = true.
Proof.
  destruct x as [x | | |], y as [y | | |]; simpl; try discriminate;
    try reflexivity.
  intros _ _ H. unfold Rltb in H. apply Rleb_true.
  destruct (Rlt_dec x y); [discriminate | lra].
Qed.

Lemma or_else_not_NaN (p q : number) :
  isNaN q = false -> isNaN (or_else p q) = false.
Proof.
  intros H. unfold or_else.
  destruct p as [x | | |]; simpl; try reflexivity; try exact H.
  destruct (negb (Reqb x 0)); [reflexivity | exact H].
Qed.

Lemma hideErrorMessage_twice (c : Control) :
  hideErrorMessage (hideErrorMessage c) = hideErrorMessage c.
Proof. unfold hideErrorMessage. destruct c as [? ? ? ? ? [d |]]; reflexivity. Qed.

End FormFacts.

Section ValidationProperties.

Import JS JSFacts Sanitizer Engine Form FormFacts.
Local Open Scope string_scope.

Variable parseFloat : string -> number.

(** X21. When [validateInput] answers [false], the input carries the
    [error] class and a visible message, and its text and attributes are
    as before. *)
Theorem validate_rejection_is_shown (c : Control) :
  snd (validateInput parseFloat c) = false ->
  let c' := fst (validateInput parseFloat c) in
  error c' = true /\
  (exists message : Message, errorDiv c' = Some (mkErrorDiv message true)) /\
  Form.value c' = Form.value c /\ Form.field c' = Form.field c /\
  minAttribute c' = minAttribute c /\ maxAttribute c' = maxAttribute c.
Proof.
  unfold validateInput.
  destruct (String.eqb (Form.value c) "");
    [destruct (Field_eqb (Form.field c) currentSavingsInput) |
     destruct (isNaN (parseFloat (Form.value c)));
     [| destruct (parseFloat (Form.value c) <? minimum parseFloat c)%js;
        [| destruct (parseFloat (Form.value c) >? maximum parseFloat c)%js]]];
    cbn [fst snd]; intros H; try discriminate;
    repeat split; eexists; reflexivity.
Qed.

(** X22. When [validateInput] answers [true] on a non-empty text, the
    [error] class is removed, no message is visible, the text is
    unchanged, and the number read from it is not [NaN] and lies between
    the minimum and the maximum of the input. *)
Theorem validate_acceptance (c : Control) :
  Form.value c <> "" ->
  snd (validateInput parseFloat c) = true ->
  let c' := fst (validateInput parseFloat c) in
  let parsed := parseFloat (Form.value c) in
  error c' = false /\
  (forall d : ErrorDiv, errorDiv c' = Some d -> show d = false) /\
  Form.value c' = Form.value c /\
  isNaN parsed = false /\
  (minimum parseFloat c <=? parsed)%js = true /\
  (parsed <=? maximum parseFloat c)%js = true.
Proof.
  intros Hne. unfold validateInput.
  destruct (String.eqb (Form.value c) "") eqn:E;
    [apply String.eqb_eq in E; contradiction |].
  destruct (isNaN (parseFloat (Form.value c))) eqn:EN;
    [cbn [snd]; discriminate |].
  destruct (parseFloat (Form.value c) <? minimum parseFloat c)%js eqn:Emin;
    [cbn [snd]; discriminate |].
  destruct (parseFloat (Form.value c) >? maximum parseFloat c)%js eqn:Emax;
    [cbn [snd]; discriminate |].
  cbn [fst snd]. intros _.
  assert (isNaN (minimum parseFloat c) = false) as Hmin
    by (apply or_else_not_NaN; reflexivity).
  assert (isNaN (maximum parseFloat c) = false) as Hmax
    by (apply or_else_not_NaN; reflexivity).
  repeat split.
  - intros d. unfold hideErrorMessage, setError. cbn [errorDiv].
    destruct (errorDiv c); intros H; inversion H; reflexivity.
  - now apply lt_false_le.
  - now apply lt_false_le.
Qed.

(** X23. On an empty text [validateInput] answers [true] for the
    current-savings input only; that input gets the text ["0"] while its
    [error] class and its message are left as they were, and every other
    input is marked with ['Please enter a value']. *)
Theorem validate_empty_text (c : Control) :
  Form.value c = "" ->
  (snd (validateInput parseFloat c) = true
   <-> Form.field c = currentSavingsInput) /\
  (Form.field c = currentSavingsInput ->
   fst (validateInput parseFloat c)
   = mkControl (Form.field c) "0" (minAttribute c) (maxAttribute c)
               (error c) (errorDiv c)) /\
  (Form.field c <> currentSavingsInput ->
   fst (validateInput parseFloat c)
   = mkControl (Form.field c) "" (minAttribute c) (maxAttribute c) true
       (Some (mkErrorDiv (Literal "Please enter a value") true))).
Proof.
  intros E. unfold validateInput. rewrite E. cbn [String.eqb].
  destruct (Form.field c) eqn:F; cbn [Field_eqb fst snd]; repeat split;
    try discriminate; try reflexivity; try contradiction;
    intros _; unfold showErrorMessage, setError, setValue;
    cbn [Form.field Form.value minAttribute maxAttribute error errorDiv];
    rewrite ?F, ?E; reflexivity.
Qed.

(** X24. A [max] attribute that is missing, unreadable or 0 sets no
    upper bound: the maximum is [Infinity] and no text is rejected for
    being too large. *)
Theorem validate_no_upper_bound (c : Control) :
  attributeNumber parseFloat (maxAttribute c) = NaN
  \/ attributeNumber parseFloat (maxAttribute c) = Fin 0 ->
  maximum parseFloat c = PInf /\
  (snd (validateInput parseFloat c) = false ->
   forall (max : number) (shown : bool),
     errorDiv (fst (validateInput parseFloat c))
     <> Some (mkErrorDiv (NoMoreThan max) shown)).
Proof.
  intros H.
  assert (maximum parseFloat c = PInf) as Hmax.
  { unfold maximum, or_else. destruct H as [-> | ->]; [reflexivity |].
    unfold truthy, Reqb. destruct (Req_dec_T 0 0); [reflexivity | lra]. }
  split; [exact Hmax |].
  unfold validateInput. rewrite Hmax.
  destruct (String.eqb (Form.value c) "");
    [destruct (Field_eqb (Form.field c) currentSavingsInput) |
     destruct (isNaN (parseFloat (Form.value c))) eqn:EN;
     [| destruct (parseFloat (Form.value c) <? minimum parseFloat c)%js;
        [| assert ((parseFloat (Form.value c) >? PInf)%js = false) as ->
             by (destruct (parseFloat (Form.value c)); reflexivity)]]];
    cbn [fst snd errorDiv showErrorMessage]; intros Hf max shown;
    discriminate.
Qed.

(** X25. On a non-empty text a second validation changes nothing: it
    returns the same flag and leaves the input as the first one did. *)
Theorem validate_twice (c : Control) :
  Form.value c <> "" ->
  validateInput parseFloat (fst (validateInput parseFloat c))
  = validateInput parseFloat c.
Proof.
  intros Hne.
  assert (String.eqb (Form.value c) "" = false) as E
    by (apply String.eqb_neq; exact Hne).
  unfold validateInput at 2 3. rewrite E.
  destruct (isNaN (parseFloat (Form.value c))) eqn:EN;
    [| destruct (parseFloat (Form.value c) <? minimum parseFloat c)%js eqn:Emin;
       [| destruct (parseFloat (Form.value c) >? maximum parseFloat c)%js
            eqn:Emax]];
    cbn [fst]; unfold validateInput, minimum, maximum in *;
    cbn [Form.value Form.field minAttribute maxAttribute showErrorMessage
         hideErrorMessage setError error errorDiv];
    rewrite E, EN, ?Emin, ?Emax; try reflexivity.
  f_equal. clear. destruct c as [? ? ? ? ? [d |]]; reflexivity.
Qed.

End ValidationProperties.

Section ValidationWitnesses.

Import JS JSFacts Sanitizer Engine Form FormFacts ParseFacts.
Local Open Scope string_scope.

Lemma validate_rejection_is_shown_witness :
  error (fst (validateInput Parse.parseFloat
                (mkControl goalAmountInput "abc" None None false None)))
  = true.
Proof.
  apply (validate_rejection_is_shown Parse.parseFloat
           (mkControl goalAmountInput "abc" None None false None)).
  reflexivity.
Defined.

Lemma validate_five :
  snd (validateInput Parse.parseFloat
         (mkControl timeHorizonInput "5" None None true None)) = true.
Proof.
  unfold validateInput, minimum, maximum, attributeNumber.
  cbn [Form.value Form.field minAttribute maxAttribute String.eqb].
  rewrite parseFloat_5, parseFloat_null.
  cbn [isNaN or_else truthy lt gt zero]. unfold zero.
  cbn [lt]. rewrite Rltb_false by lra. reflexivity.
Qed.

Lemma validate_acceptance_witness :
  error (fst (validateInput Parse.parseFloat
                (mkControl timeHorizonInput "5" None None true None)))
  = false.
Proof.
  apply (validate_acceptance Parse.parseFloat
           (mkControl timeHorizonInput "5" None None true None)).
  - discriminate.
  - exact validate_five.
Defined.

Lemma validate_empty_text_witness :
  snd (validateInput Parse.parseFloat
         (mkControl currentSavingsInput "" None None true None)) = true.
Proof.
  apply (validate_empty_text Parse.parseFloat
           (mkControl currentSavingsInput "" None None true None));
    reflexivity.
Defined.

Lemma validate_no_upper_bound_witness :
  maximum Parse.parseFloat
    (mkControl goalAmountInput "900" None (Some "0") false None) = PInf.
Proof.
  apply (validate_no_upper_bound Parse.parseFloat
           (mkControl goalAmountInput "900" None (Some "0") false None)).
  right. unfold attributeNumber. cbn [maxAttribute]. exact parseFloat_0.
Defined.

Lemma validate_twice_witness :
  validateInput Parse.parseFloat
    (fst (validateInput Parse.parseFloat
            (mkControl annualReturnInput "." None None false None)))
  = validateInput Parse.parseFloat
      (mkControl annualReturnInput "." None None false None).
Proof.
  apply (validate_twice Parse.parseFloat
           (mkControl annualReturnInput "." None None false None)).
  discriminate.
Defined.

End ValidationWitnesses.

Section FormProperties.

Import JS JSFacts Sanitizer SanitizerFacts Texts SanitizerMore.
Import Engine EngineFacts EngineMore Form FormFacts ParseFacts.
Local Open Scope string_scope.

Lemma clearErrorState_quiet (c : Control) : quiet (clearErrorState c).
Proof.
  split; [reflexivity |].
  unfold clearErrorState, hideErrorMessage, setError. cbn [errorDiv].
  intros d. destruct (errorDiv c); intros H; inversion H; reflexivity.
Qed.

Lemma clearErrorState_setValue (c : Control) (text : string) :
  clearErrorState (setValue c text) = setValue (clearErrorState c) text.
Proof. reflexivity. Qed.

Lemma clearErrorState_twice (c : Control) :
  clearErrorState (clearErrorState c) = clearErrorState c.
Proof. destruct c as [? ? ? ? ? [d |]]; reflexivity. Qed.

(** X26. Whatever the form held, [clearAll] leaves the texts 50000, 5,
    7 and 0 with no [error] class and no visible message; it forgets a
    preset loaded before, doing it twice changes nothing more, and the
    values the calculation then reads are the default values. *)
Theorem clearAll_resets (f : Inputs) :
  let f' := clearAll f in
  (Form.value (Form.goalAmount f') = "50000" /\
   Form.value (Form.timeHorizon f') = "5" /\
   Form.value (Form.annualReturn f') = "7" /\
   Form.value (Form.currentSavings f') = "0") /\
  (quiet (Form.goalAmount f') /\ quiet (Form.timeHorizon f') /\
   quiet (Form.annualReturn f') /\ quiet (Form.currentSavings f')) /\
  clearAll f' = f' /\
  (forall goal time returnRate : option string,
     clearAll (loadExample goal time returnRate f) = f') /\
  readInputValues Parse.parseFloat f' = defaultValues.
Proof.
  intros f'.
  split; [repeat split |].
  split; [repeat apply conj; apply clearErrorState_quiet |].
  split; [| split].
  - unfold f', clearAll, clearErrorStates, setDefaultValues.
    cbn [Form.goalAmount Form.timeHorizon Form.annualReturn
         Form.currentSavings].
    rewrite !clearErrorState_setValue, !clearErrorState_twice. reflexivity.
  - intros goal time returnRate.
    unfold f', clearAll, loadExample, clearErrorStates, setDefaultValues.
    cbn [Form.goalAmount Form.timeHorizon Form.annualReturn
         Form.currentSavings].
    rewrite !clearErrorState_setValue, !clearErrorState_twice. reflexivity.
  - unfold readInputValues, f', clearAll, clearErrorStates, setDefaultValues.
    cbn [Form.goalAmount Form.timeHorizon Form.annualReturn
         Form.currentSavings clearErrorState hideErrorMessage setError
         setValue Form.value].
    rewrite parseFloat_50000, parseFloat_5, parseFloat_7, parseFloat_0.
    unfold getInputValues, defaultValues. rewrite !nonNegative_value.
    rewrite !Rmax_right by lra. reflexivity.
Qed.

(** X27. A preset puts its three texts in the goal, horizon and rate
    inputs and 0 in the savings input, leaves no [error] class and no
    visible message, keeps the field and the [min] and [max] attributes
    of all four inputs, and the calculation it triggers reads current
    savings of 0. *)
Theorem loadExample_state
    (goal time returnRate : option string) (f : Inputs) :
  let f' := loadExample goal time returnRate f in
  (Form.value (Form.goalAmount f') = datasetText goal /\
   Form.value (Form.timeHorizon f') = datasetText time /\
   Form.value (Form.annualReturn f') = datasetText returnRate /\
   Form.value (Form.currentSavings f') = "0") /\
  (quiet (Form.goalAmount f') /\ quiet (Form.timeHorizon f') /\
   quiet (Form.annualReturn f') /\ quiet (Form.currentSavings f')) /\
  (Form.field (Form.goalAmount f') = Form.field (Form.goalAmount f) /\
   Form.field (Form.timeHorizon f') = Form.field (Form.timeHorizon f) /\
   Form.field (Form.annualReturn f') = Form.field (Form.annualReturn f) /\
   Form.field (Form.currentSavings f')
   = Form.field (Form.currentSavings f)) /\
  (minAttribute (Form.goalAmount f') = minAttribute (Form.goalAmount f) /\
   minAttribute (Form.timeHorizon f') = minAttribute (Form.timeHorizon f) /\
   minAttribute (Form.annualReturn f')
   = minAttribute (Form.annualReturn f) /\
   minAttribute (Form.currentSavings f')
   = minAttribute (Form.currentSavings f)) /\
  (maxAttribute (Form.goalAmount f') = maxAttribute (Form.goalAmount f) /\
   maxAttribute (Form.timeHorizon f') = maxAttribute (Form.timeHorizon f) /\
   maxAttribute (Form.annualReturn f')
   = maxAttribute (Form.annualReturn f) /\
   maxAttribute (Form.currentSavings f')
   = maxAttribute (Form.currentSavings f)) /\
  Engine.currentSavings (readInputValues Parse.parseFloat f') = Fin 0.
Proof.
  intros f'.
  split; [repeat split |].
  split; [repeat apply conj; apply clearErrorState_quiet |].
  split; [repeat split |].
  split; [repeat split |].
  split; [repeat split |].
  unfold readInputValues, f', loadExample, getInputValues.
  cbn [Form.currentSavings setValue Form.value Engine.currentSavings].
  rewrite parseFloat_0, nonNegative_value. f_equal. apply Rmax_left. lra.
Qed.

Lemma lt_minimum_false (x : R) (min : number) :
  (min <=? zero)%js = true -> (0 <= x)%R -> (Fin x <? min)%js = false.
Proof.
  unfold zero. destruct min as [m | | |]; simpl; try discriminate;
    try reflexivity.
  intros H Hx. apply Rleb_iff in H. apply Rltb_false. lra.
Qed.

(** X28. The text left by the sanitizer never reads as a negative
    number or as [-Infinity], and reads as [NaN] exactly when it is
    empty or a lone point; [getInputValues] turns these two into 0 and
    passes every other reading unchanged. *)
Theorem sanitized_text_reading (f : Field) (raw : string) :
  let text := sanitized f raw in
  let parsed := Parse.parseFloat text in
  isNaN parsed = (String.eqb text "" || String.eqb text ".") /\
  (parsed <? zero)%js = false /\
  parsed <> NInf /\
  nonNegative parsed
  = if String.eqb text "" || String.eqb text "." then Fin 0 else parsed.
Proof.
  intros text parsed.
  destruct (parseFloat_clean text (sanitized_clean f raw)) as [Hnan Hnum].
  destruct (String.eqb text "") eqn:E1;
    [| destruct (String.eqb text ".") eqn:E2].
  - apply String.eqb_eq in E1. unfold parsed.
    rewrite (Hnan (or_introl E1)), nonNegative_value.
    repeat split. discriminate.
  - apply String.eqb_eq in E2. unfold parsed.
    rewrite (Hnan (or_intror E2)), nonNegative_value.
    repeat split. discriminate.
  - apply String.eqb_neq in E1. apply String.eqb_neq in E2.
    destruct (Hnum E1 E2) as (x & Hx & Hx0). unfold parsed. rewrite Hx.
    cbn [orb isNaN]. repeat split.
    + unfold zero. cbn [lt]. apply Rltb_false. exact Hx0.
    + discriminate.
    + rewrite nonNegative_value. f_equal. apply Rmax_right. exact Hx0.
Qed.

(** X29. On a text of digits and at most one point, and with a minimum
    of at most 0 (no [min] attribute, for one), [validateInput] never
    rejects for being too small: a rejection carries one of the two
    fixed messages or the upper-bound message. *)
Theorem clean_text_never_below_minimum (c : Control) :
  clean (Form.value c) ->
  (minimum Parse.parseFloat c <=? zero)%js = true ->
  snd (validateInput Parse.parseFloat c) = false ->
  (exists text : string,
     errorDiv (fst (validateInput Parse.parseFloat c))
     = Some (mkErrorDiv (Literal text) true)) \/
  errorDiv (fst (validateInput Parse.parseFloat c))
  = Some (mkErrorDiv (NoMoreThan (maximum Parse.parseFloat c)) true).
Proof.
  intros Hclean Hmin.
  destruct (parseFloat_clean (Form.value c) Hclean) as [Hnan Hnum].
  unfold validateInput.
  destruct (String.eqb (Form.value c) "") eqn:E.
  - destruct (Field_eqb (Form.field c) currentSavingsInput);
      cbn [fst snd errorDiv showErrorMessage]; intros Hf;
      [discriminate | left; eexists; reflexivity].
  - apply String.eqb_neq in E.
    destruct (String.eqb (Form.value c) ".") eqn:E2.
    + apply String.eqb_eq in E2. rewrite (Hnan (or_intror E2)).
      cbn [isNaN fst snd errorDiv showErrorMessage]. intros Hf.
      left; eexists; reflexivity.
    + apply String.eqb_neq in E2.
      destruct (Hnum E E2) as (x & Hx & Hx0). rewrite Hx.
      cbn [isNaN]. rewrite (lt_minimum_false x _ Hmin Hx0).
      destruct (Fin x >? maximum Parse.parseFloat c)%js;
        cbn [fst snd errorDiv showErrorMessage]; intros Hf;
        [right; reflexivity | discriminate].
Qed.

Lemma clean_text_never_below_minimum_witness :
  (exists text : string,
     errorDiv (fst (validateInput Parse.parseFloat
                      (mkControl goalAmountInput "." None None false None)))
     = Some (mkErrorDiv (Literal text) true)) \/
  errorDiv (fst (validateInput Parse.parseFloat
                   (mkControl goalAmountInput "." None None false None)))
  = Some (mkErrorDiv
            (NoMoreThan
               (maximum Parse.parseFloat
                  (mkControl goalAmountInput "." None None false None)))
            true).
Proof.
  apply (clean_text_never_below_minimum
           (mkControl goalAmountInput "." None None false None)).
  - split; [reflexivity | vm_compute; lia].
  - unfold minimum, attributeNumber. cbn [minAttribute].
    rewrite parseFloat_null. unfold or_else, truthy, zero. cbn [le].
    apply Rleb_true. lra.
  - reflexivity.
Defined.

End FormProperties.
